(** * Atari preprocessing wrappers (stable_baselines3/common/atari_wrappers.py)

    A shallow embedding of the gym wrappers [NoopResetEnv], [FireResetEnv],
    [EpisodicLifeEnv], [MaxAndSkipEnv], [ClipRewardEnv], [WarpFrame] and of
    the builder [AtariWrapper].

    A gym environment is an object with mutable state; here it is split
    into its behaviour ([Env S]: the methods, as functions threading a
    state of type [S] and possibly raising) and its current state.  A
    wrapper is a function from the behaviour of the wrapped environment to
    the behaviour of the wrapper; the wrapper's state holds the state of
    the wrapped environment ([self.env]) next to the wrapper's own
    attributes.

    The keyword arguments of [reset] are handed unchanged to every inner
    [reset] and are left out. *)

From Stdlib Require Import ZArith List String Bool Lia.
Import ListNotations.
Open Scope Z_scope.

(** ** Values exchanged with an environment *)

(** A frame is a numpy array of pixel intensities; it is kept as the flat
    list of its entries.  The frames of an environment all have the shape
    it declares ([observation_space.shape]), so a frame and a buffer slot
    have as many entries.  [np.zeros(shape)] is the array of zeros with
    as many entries as the product of [shape]. *)
Definition Frame := list Z.

Definition np_zeros (shape : list Z) : Frame :=
  repeat 0 (Z.to_nat (fold_right Z.mul 1 shape)).

(** [a.max(axis=0)] on a buffer of two frames: the entrywise maximum. *)
Fixpoint frame_max (f g : Frame) : Frame :=
  match f, g with
  | x :: f', y :: g' => Z.max x y :: frame_max f' g'
  | _, _ => []
  end.

(** What the wrappers do not look into: rewards (Python floats, with the
    float [0.0], addition and [np.sign]), the [info] dictionary, the crop
    region, and the cv2 primitives used by [WarpFrame]. *)
Class Payload := {
  Reward : Type;
  rzero : Reward;
  radd : Reward -> Reward -> Reward;
  np_sign : Reward -> Reward;
  Info : Type;
  Region : Type;
  crop : Region -> Frame -> Frame;
  cvtColor_RGB2GRAY : Frame -> Frame;
  resize_INTER_AREA : Z -> Z -> Frame -> Frame
}.

(** The exceptions the wrappers can raise.  An [assert] without a message
    raises an [AssertionError] that carries none. *)
Inductive exn : Type :=
| AssertionError (msg : option string)
| IndexError (msg : string)
| ValueError (msg : string)
| UnboundLocalError (msg : string).

Definition exn_message (e : exn) : option string :=
  match e with
  | AssertionError m => m
  | IndexError m | ValueError m | UnboundLocalError m => Some m
  end.

(** ** Computations over a mutable state that may raise

    The state reached when an exception is raised is kept: attributes
    assigned before the [raise] stay assigned. *)
Definition M (S A : Type) : Type := S -> (exn + A) * S.

Definition ret {S A} (a : A) : M S A := fun s => (inr a, s).

Definition raise {S A} (e : exn) : M S A := fun s => (inl e, s).

Definition bind {S A B} (m : M S A) (k : A -> M S B) : M S B :=
  fun s =>
    match m s with
    | (inl e, s') => (inl e, s')
    | (inr a, s') => k a s'
    end.

Notation "x <- m ;; k" := (bind m (fun x => k))
  (at level 61, m at next level, right associativity).
Notation "m ;;; k" := (bind m (fun _ => k))
  (at level 61, right associativity).

Definition gets {S A} (f : S -> A) : M S A := fun s => (inr (f s), s).

Definition modify {S} (f : S -> S) : M S unit := fun s => (inr tt, f s).

(** [assert c] without a message. *)
Definition assert_ {S} (c : bool) : M S unit :=
  if c then ret tt else raise (AssertionError None).

(** [if c: body] with no [else]. *)
Definition when {S} (c : bool) (body : M S unit) : M S unit :=
  if c then body else ret tt.

(** An inner call made from a wrapper whose state [W] holds the inner
    state [S] ([get], [set]). *)
Definition within {S W A} (get : W -> S) (set : S -> W -> W) (m : M S A)
  : M W A :=
  fun w => let (r, s') := m (get w) in (r, set s' w).

(** Construction of an object: it either raises or yields the object. *)
Definition Ctor (A : Type) : Type := (exn + A)%type.

Definition cbind {A B} (c : Ctor A) (k : A -> Ctor B) : Ctor B :=
  match c with
  | inl e => inl e
  | inr a => k a
  end.

(** [l[i]] on a Python list, for an index [i >= 0]. *)
Definition list_index {A} (l : list A) (i : nat) : Ctor A :=
  match nth_error l i with
  | Some a => inr a
  | None => inl (IndexError "list index out of range")
  end.

(** [x in l] on a list of strings. *)
Definition str_in (x : string) (l : list string) : bool :=
  existsb (String.eqb x) l.

(** ** The attributes of the wrappers that change after construction

    Each record holds the state of the wrapped environment ([self.env])
    and the wrapper's own mutable attributes. *)

(** [EpisodicLifeEnv]: [self.lives] and [self.was_real_done]. *)
Record EpisodicLifeState (S : Type) := mkEpisodic {
  el_env : S;
  lives : Z;
  was_real_done : bool
}.
Arguments mkEpisodic {S}.
Arguments el_env {S}.
Arguments lives {S}.
Arguments was_real_done {S}.

(** [MaxAndSkipEnv]: the two slots of [self._obs_buffer]. *)
Record MaxAndSkipState (S : Type) := mkMaxAndSkip {
  ms_env : S;
  _obs_buffer : Frame * Frame
}.
Arguments mkMaxAndSkip {S}.
Arguments ms_env {S}.
Arguments _obs_buffer {S}.

(** The 4-tuple returned by [step]. *)
Record StepReturn `{P : Payload} := mkStep {
  sr_obs : Frame;
  sr_reward : Reward;
  sr_done : bool;
  sr_info : Info
}.
Arguments mkStep {P}.

(** The classes of this module, with the attributes set at construction. *)
Inductive Layer `{P : Payload} : Type :=
| L_NoopResetEnv (noop_max : Z) (override_num_noops : option Z)
| L_MaxAndSkipEnv (skip : Z)
| L_EpisodicLifeEnv
| L_FireResetEnv
| L_WarpFrame (width height : Z) (region : option Region)
| L_ClipRewardEnv
| L_AtariWrapper.

(** The behaviour of an environment whose state has type [S].

    - [env_reset], [env_step]: the two methods;
    - [get_action_meanings], [ale_lives], [np_random]: what is reached
      through [env.unwrapped] (the action names, [ale.lives()], and the
      random source: [np_random] draws the next raw number, which
      [np_randint] below brings into the requested range);
    - [observation_shape]: [env.observation_space.shape];
    - [env_chain]: the classes met going down [.env] from this object to
      the unwrapped environment (outermost first). *)
Record Env `{P : Payload} (S : Type) := mkEnv {
  env_reset : M S Frame;
  env_step : Z -> M S StepReturn;
  get_action_meanings : list string;
  ale_lives : S -> Z;
  np_random : S -> Z * S;
  observation_shape : list Z;
  env_chain : list Layer
}.
Arguments mkEnv {P S}.
Arguments env_reset {P S}.
Arguments env_step {P S}.
Arguments get_action_meanings {P S}.
Arguments ale_lives {P S}.
Arguments np_random {P S}.
Arguments observation_shape {P S}.
Arguments env_chain {P S}.

(** An environment object: a behaviour and its current state. *)
Record GymEnv `{P : Payload} := mkGym {
  gym_S : Type;
  gym_env : Env gym_S;
  gym_state : gym_S
}.
Arguments mkGym {P}.

Section Environments.
Context `{P : Payload}.

(** [np_random.randint(low, high)]: an integer of [[low, high)], and a
    [ValueError] when that range is empty. *)
Definition np_randint {S} (E : Env S) (low high : Z) : M S Z :=
  fun s =>
    if low <? high
    then let (raw, s') := np_random E s in
         (inr (low + raw mod (high - low)), s')
    else (inl (ValueError "low >= high"), s).

(** ** gym.Wrapper: every method goes to the wrapped environment *)
Definition Wrapper {S} (cls : Layer) (E : Env S) : Env S :=
  {| env_reset := env_reset E;
     env_step := env_step E;
     get_action_meanings := get_action_meanings E;
     ale_lives := ale_lives E;
     np_random := np_random E;
     observation_shape := observation_shape E;
     env_chain := cls :: env_chain E |}.

(** ** NoopResetEnv *)

Definition noop_action : Z := 0.

(** The body of [for _ in range(noops)], [n] iterations left; [obs] is
    the loop's variable of that name. *)
Fixpoint noop_loop {S} (E : Env S) (n : nat) (obs : Frame) : M S Frame :=
  match n with
  | O => ret obs
  | S n' =>
      r <- env_step E noop_action ;;
      obs <- (if sr_done r then env_reset E else ret (sr_obs r)) ;;
      noop_loop E n' obs
  end.

Definition NoopResetEnv_reset {S} (E : Env S) (noop_max : Z)
    (override_num_noops : option Z) : M S Frame :=
  env_reset E ;;;
  noops <- match override_num_noops with
           | Some n => ret n
           | None => np_randint E 1 (noop_max + 1)
           end ;;
  assert_ (0 <? noops) ;;;
  noop_loop E (Z.to_nat noops) (np_zeros [0]).

Definition NoopResetEnv {S} (E : Env S) (noop_max : Z)
    (override_num_noops : option Z) : Env S :=
  let W := Wrapper (L_NoopResetEnv noop_max override_num_noops) E in
  {| env_reset := NoopResetEnv_reset E noop_max override_num_noops;
     env_step := env_step W;
     get_action_meanings := get_action_meanings W;
     ale_lives := ale_lives W;
     np_random := np_random W;
     observation_shape := observation_shape W;
     env_chain := env_chain W |}.

(** The object as [__init__] leaves it when its assertion holds. *)
Definition NoopResetEnv_obj (env : GymEnv) (noop_max : Z)
    (override_num_noops : option Z) : GymEnv :=
  mkGym (gym_S env)
        (NoopResetEnv (gym_env env) noop_max override_num_noops)
        (gym_state env).

Definition NoopResetEnv_init (env : GymEnv) (noop_max : Z)
    (override_num_noops : option Z) : Ctor GymEnv :=
  cbind (list_index (get_action_meanings (gym_env env)) 0) (fun m0 =>
  if String.eqb m0 "NOOP"
  then inr (NoopResetEnv_obj env noop_max override_num_noops)
  else inl (AssertionError None)).

(** ** FireResetEnv *)

Definition FireResetEnv_reset {S} (E : Env S) : M S Frame :=
  env_reset E ;;;
  r1 <- env_step E 1 ;;
  (if sr_done r1 then env_reset E ;;; ret tt else ret tt) ;;;
  r2 <- env_step E 2 ;;
  (if sr_done r2 then env_reset E ;;; ret tt else ret tt) ;;;
  ret (sr_obs r2).

Definition FireResetEnv {S} (E : Env S) : Env S :=
  let W := Wrapper L_FireResetEnv E in
  {| env_reset := FireResetEnv_reset E;
     env_step := env_step W;
     get_action_meanings := get_action_meanings W;
     ale_lives := ale_lives W;
     np_random := np_random W;
     observation_shape := observation_shape W;
     env_chain := env_chain W |}.

(** The object as [__init__] leaves it when its assertions hold. *)
Definition FireResetEnv_obj (env : GymEnv) : GymEnv :=
  mkGym (gym_S env) (FireResetEnv (gym_env env)) (gym_state env).

Definition FireResetEnv_init (env : GymEnv) : Ctor GymEnv :=
  let meanings := get_action_meanings (gym_env env) in
  cbind (list_index meanings 1) (fun m1 =>
  if negb (String.eqb m1 "FIRE") then inl (AssertionError None)
  else if negb (3 <=? Z.of_nat (List.length meanings))
  then inl (AssertionError None)
  else inr (FireResetEnv_obj env)).

(** ** EpisodicLifeEnv *)

Definition el_inner {S A} (m : M S A) : M (EpisodicLifeState S) A :=
  within el_env
    (fun s w => mkEpisodic s (lives w) (was_real_done w)) m.

Definition set_was_real_done {S} (b : bool) : M (EpisodicLifeState S) unit :=
  modify (fun w => mkEpisodic (el_env w) (lives w) b).

Definition set_lives {S} (l : Z) : M (EpisodicLifeState S) unit :=
  modify (fun w => mkEpisodic (el_env w) l (was_real_done w)).

Definition EpisodicLifeEnv_step {S} (E : Env S) (action : Z)
  : M (EpisodicLifeState S) StepReturn :=
  r <- el_inner (env_step E action) ;;
  set_was_real_done (sr_done r) ;;;
  cur <- gets (fun w => ale_lives E (el_env w)) ;;
  stored <- gets lives ;;
  let done := if (0 <? cur) && (cur <? stored) then true else sr_done r in
  set_lives cur ;;;
  ret (mkStep (sr_obs r) (sr_reward r) done (sr_info r)).

Definition EpisodicLifeEnv_reset {S} (E : Env S)
  : M (EpisodicLifeState S) Frame :=
  real <- gets was_real_done ;;
  obs <- (if real
          then el_inner (env_reset E)
          else r <- el_inner (env_step E 0) ;; ret (sr_obs r)) ;;
  cur <- gets (fun w => ale_lives E (el_env w)) ;;
  set_lives cur ;;;
  ret obs.

Definition EpisodicLifeEnv {S} (E : Env S) : Env (EpisodicLifeState S) :=
  {| env_reset := EpisodicLifeEnv_reset E;
     env_step := EpisodicLifeEnv_step E;
     get_action_meanings := get_action_meanings E;
     ale_lives := fun w => ale_lives E (el_env w);
     np_random := fun w =>
       let (raw, s') := np_random E (el_env w) in
       (raw, mkEpisodic s' (lives w) (was_real_done w));
     observation_shape := observation_shape E;
     env_chain := L_EpisodicLifeEnv :: env_chain E |}.

Definition EpisodicLifeEnv_init (env : GymEnv) : GymEnv :=
  mkGym (EpisodicLifeState (gym_S env))
        (EpisodicLifeEnv (gym_env env))
        (mkEpisodic (gym_state env) 0 true).

(** ** MaxAndSkipEnv *)

Definition ms_inner {S A} (m : M S A) : M (MaxAndSkipState S) A :=
  within ms_env (fun s w => mkMaxAndSkip s (_obs_buffer w)) m.

(** [self._obs_buffer[0] = obs] and [self._obs_buffer[1] = obs]: the
    entries of [obs] are copied into the slot. *)
Definition set_slot0 {S} (obs : Frame) : M (MaxAndSkipState S) unit :=
  modify (fun w => mkMaxAndSkip (ms_env w) (obs, snd (_obs_buffer w))).

Definition set_slot1 {S} (obs : Frame) : M (MaxAndSkipState S) unit :=
  modify (fun w => mkMaxAndSkip (ms_env w) (fst (_obs_buffer w), obs)).

(** The variables that outlive the loop of [step]: [total_reward], and
    [done] and [info], unbound ([None]) until an iteration has run. *)
Definition SkipVars : Type := (Reward * option (bool * Info))%type.

(** [for i in range(self._skip)] from index [i] on, [n] iterations left. *)
Fixpoint skip_loop {S} (E : Env S) (skip action : Z) (n : nat) (i : Z)
    (total_reward : Reward) (last : option (bool * Info))
  : M (MaxAndSkipState S) SkipVars :=
  match n with
  | O => ret (total_reward, last)
  | S n' =>
      r <- ms_inner (env_step E action) ;;
      when (i =? skip - 2) (set_slot0 (sr_obs r)) ;;;
      when (i =? skip - 1) (set_slot1 (sr_obs r)) ;;;
      let total_reward := radd total_reward (sr_reward r) in
      let last := Some (sr_done r, sr_info r) in
      if sr_done r then ret (total_reward, last)
      else skip_loop E skip action n' (i + 1) total_reward last
  end.

Definition MaxAndSkipEnv_step {S} (E : Env S) (skip action : Z)
  : M (MaxAndSkipState S) StepReturn :=
  vars <- skip_loop E skip action (Z.to_nat skip) 0 rzero None ;;
  max_frame <- gets (fun w => frame_max (fst (_obs_buffer w))
                                        (snd (_obs_buffer w))) ;;
  match snd vars with
  | Some (done, info) => ret (mkStep max_frame (fst vars) done info)
  | None =>
      raise (UnboundLocalError
               "local variable 'info' referenced before assignment")
  end.

Definition MaxAndSkipEnv {S} (E : Env S) (skip : Z)
  : Env (MaxAndSkipState S) :=
  {| env_reset := ms_inner (env_reset E);
     env_step := MaxAndSkipEnv_step E skip;
     get_action_meanings := get_action_meanings E;
     ale_lives := fun w => ale_lives E (ms_env w);
     np_random := fun w =>
       let (raw, s') := np_random E (ms_env w) in
       (raw, mkMaxAndSkip s' (_obs_buffer w));
     observation_shape := observation_shape E;
     env_chain := L_MaxAndSkipEnv skip :: env_chain E |}.

Definition MaxAndSkipEnv_init (env : GymEnv) (skip : Z) : GymEnv :=
  let zeros := np_zeros (observation_shape (gym_env env)) in
  mkGym (MaxAndSkipState (gym_S env))
        (MaxAndSkipEnv (gym_env env) skip)
        (mkMaxAndSkip (gym_state env) (zeros, zeros)).

(** ** ClipRewardEnv (a gym.RewardWrapper) *)

Definition ClipRewardEnv_reward (reward : Reward) : Reward := np_sign reward.

Definition ClipRewardEnv {S} (E : Env S) : Env S :=
  {| env_reset := env_reset E;
     env_step := fun action =>
       r <- env_step E action ;;
       ret (mkStep (sr_obs r) (ClipRewardEnv_reward (sr_reward r))
                   (sr_done r) (sr_info r));
     get_action_meanings := get_action_meanings E;
     ale_lives := ale_lives E;
     np_random := np_random E;
     observation_shape := observation_shape E;
     env_chain := L_ClipRewardEnv :: env_chain E |}.

Definition ClipRewardEnv_init (env : GymEnv) : GymEnv :=
  mkGym (gym_S env) (ClipRewardEnv (gym_env env)) (gym_state env).

(** ** WarpFrame (a gym.ObservationWrapper) *)

Definition WarpFrame_observation (width height : Z) (region : option Region)
    (frame : Frame) : Frame :=
  let frame := match region with
               | Some rg => crop rg frame
               | None => frame
               end in
  let frame := cvtColor_RGB2GRAY frame in
  resize_INTER_AREA width height frame.

Definition WarpFrame {S} (E : Env S) (width height : Z)
    (region : option Region) : Env S :=
  {| env_reset :=
       obs <- env_reset E ;;
       ret (WarpFrame_observation width height region obs);
     env_step := fun action =>
       r <- env_step E action ;;
       ret (mkStep (WarpFrame_observation width height region (sr_obs r))
                   (sr_reward r) (sr_done r) (sr_info r));
     get_action_meanings := get_action_meanings E;
     ale_lives := ale_lives E;
     np_random := np_random E;
     observation_shape := [height; width; 1];
     env_chain := L_WarpFrame width height region :: env_chain E |}.

Definition WarpFrame_init (env : GymEnv) (width height : Z)
    (region : option Region) : GymEnv :=
  mkGym (gym_S env) (WarpFrame (gym_env env) width height region)
        (gym_state env).

(** ** AtariWrapper *)

Record AtariConfig := mkConfig {
  noop_max : Z;
  frame_skip : Z;
  region : option Region;
  screen_size : Z;
  override_num_noops : option Z;
  terminal_on_life_loss : bool;
  clip_reward : bool
}.

Definition default_config : AtariConfig :=
  mkConfig 30 4 None 84 None true true.

(** [super(AtariWrapper, self).__init__(env)]: a plain [gym.Wrapper]. *)
Definition AtariWrapper_obj (env : GymEnv) : GymEnv :=
  mkGym (gym_S env) (Wrapper L_AtariWrapper (gym_env env)) (gym_state env).

Definition AtariWrapper_init (env : GymEnv) (c : AtariConfig) : Ctor GymEnv :=
  cbind (NoopResetEnv_init env (noop_max c) (override_num_noops c)) (fun env =>
  let env := MaxAndSkipEnv_init env (frame_skip c) in
  let env := if terminal_on_life_loss c then EpisodicLifeEnv_init env else env in
  cbind (if str_in "FIRE" (get_action_meanings (gym_env env))
         then FireResetEnv_init env else inr env) (fun env =>
  let env := WarpFrame_init env (screen_size c) (screen_size c) (region c) in
  let env := if clip_reward c then ClipRewardEnv_init env else env in
  inr (AtariWrapper_obj env))).

End Environments.

(** ** Observing the calls made on the wrapped environment *)

(** One call received by an environment, with what it gave back. *)
Inductive Call `{P : Payload} : Type :=
| CallReset (out : exn + Frame)
| CallStep (action : Z) (out : exn + StepReturn).

(** One iteration of the no-op loop as seen by the wrapped environment:
    a step that left the episode open, or a step that closed it followed
    by the reset that gave [o]. *)
Inductive NoopIter `{P : Payload} : Type :=
| Alive (r : StepReturn)
| Restart (r : StepReturn) (o : Frame).

Section Instrumentation.
Context `{P : Payload}.

(** [Logged E] behaves as [E] and appends every [reset] and [step] it
    receives to a log kept next to the state of [E]. *)
Definition Logged {S} (E : Env S) : Env (S * list Call) :=
  {| env_reset := fun sl =>
       let (out, s') := env_reset E (fst sl) in
       (out, (s', snd sl ++ [CallReset out]));
     env_step := fun action sl =>
       let (out, s') := env_step E action (fst sl) in
       (out, (s', snd sl ++ [CallStep action out]));
     get_action_meanings := get_action_meanings E;
     ale_lives := fun sl => ale_lives E (fst sl);
     np_random := fun sl =>
       let (raw, s') := np_random E (fst sl) in (raw, (s', snd sl));
     observation_shape := observation_shape E;
     env_chain := env_chain E |}.

(** The wrapped environment answers every call. *)
Definition never_raises {S} (E : Env S) : Prop :=
  (forall s, exists o s', env_reset E s = (inr o, s')) /\
  (forall a s, exists r s', env_step E a s = (inr r, s')).

Definition is_reset (c : Call) : bool :=
  match c with CallReset _ => true | CallStep _ _ => false end.

Definition is_step (c : Call) : bool :=
  match c with CallReset _ => false | CallStep _ _ => true end.

(** A [step] call that came back with [done = True]. *)
Definition is_done_step (c : Call) : bool :=
  match c with
  | CallStep _ (inr r) => sr_done r
  | _ => false
  end.

Definition count (p : Call -> bool) (log : list Call) : nat :=
  List.length (filter p log).

(** The actions of the [step] calls of a log, in order. *)
Fixpoint step_actions (log : list Call) : list Z :=
  match log with
  | [] => []
  | CallStep a _ :: log' => a :: step_actions log'
  | CallReset _ :: log' => step_actions log'
  end.

(** The observation of the last [step] call of a log that answered. *)
Fixpoint last_step_obs (log : list Call) : option Frame :=
  match log with
  | [] => None
  | c :: log' =>
      match last_step_obs log', c with
      | Some o, _ => Some o
      | None, CallStep _ (inr r) => Some (sr_obs r)
      | None, _ => None
      end
  end.

(** [rs] answered to [step(action)] calls made one after the other. *)
Definition step_calls (action : Z) (rs : list StepReturn) : list Call :=
  map (fun r => CallStep action (inr r)) rs.

Definition iter_calls (it : NoopIter) : list Call :=
  match it with
  | Alive r => [CallStep noop_action (inr r)]
  | Restart r o => [CallStep noop_action (inr r); CallReset (inr o)]
  end.

Definition iter_ok (it : NoopIter) : Prop :=
  match it with
  | Alive r => sr_done r = false
  | Restart r _ => sr_done r = true
  end.

Definition iter_obs (it : NoopIter) : Frame :=
  match it with
  | Alive r => sr_obs r
  | Restart _ o => o
  end.

(** The configured number of no-ops, when it does not fail. *)
Definition noops_configured (noop_max : Z) (override_num_noops : option Z)
  : Prop :=
  match override_num_noops with
  | Some n => 0 < n
  | None => 1 <= noop_max
  end.

(** The calls of one [FireResetEnv.reset] up to the step with action 2,
    given what each call gave. *)
Definition fire_prefix (o0 : Frame) (r1 : StepReturn) (o1 : Frame)
    (r2 : StepReturn) : list Call :=
  [CallReset (inr o0); CallStep 1 (inr r1)]
  ++ (if sr_done r1 then [CallReset (inr o1)] else [])
  ++ [CallStep 2 (inr r2)].

(** [rs] is what a loop of at most [n] steps that stops at the first
    [done] can receive: no answer but the last is [done], and the loop
    ran [n] times unless the last one is. *)
Fixpoint skip_run (n : nat) (rs : list StepReturn) : Prop :=
  match n, rs with
  | O, [] => True
  | S n', r :: rs' => if sr_done r then rs' = [] else skip_run n' rs'
  | _, _ => False
  end.

(** [l[k]] for an integer [k], nothing outside of [0 .. len(l) - 1]. *)
Definition nth_Z {A} (l : list A) (k : Z) : option A :=
  if k <? 0 then None else nth_error l (Z.to_nat k).

(** The content of a buffer slot written at iteration [k] only, after the
    iterations [i], [i + 1], ... that received [rs]. *)
Fixpoint keyed (k i : Z) (rs : list StepReturn) (old : Frame) : Frame :=
  match rs with
  | [] => old
  | r :: rs' => keyed k (i + 1) rs' (if i =? k then sr_obs r else old)
  end.

(** [done] and [info] after the iterations that received [rs]. *)
Definition last_vars (rs : list StepReturn) (last : option (bool * Info))
  : option (bool * Info) :=
  fold_left (fun _ r => Some (sr_done r, sr_info r)) rs last.

(** "A descriptive error identifying the missing capability": at the
    least, the exception carries a message. *)
Definition descriptive (e : exn) : Prop :=
  exists m, exn_message e = Some m /\ m <> EmptyString.

(** [f(env) if b else env]: a wrapper that is put on only if [b]. *)
Definition wrap_if (b : bool) (f : GymEnv -> GymEnv) (env : GymEnv)
  : GymEnv :=
  if b then f env else env.

End Instrumentation.

(** ** Scripted environments, to run the wrappers on *)

Module Scripted.

(** Integer rewards, no [info], frames left as they are by cv2. *)
Definition payload : Payload :=
  {| Reward := Z;
     rzero := 0;
     radd := Z.add;
     np_sign := Z.sgn;
     Info := unit;
     Region := unit;
     crop := fun _ f => f;
     cvtColor_RGB2GRAY := fun f => f;
     resize_INTER_AREA := fun _ _ f => f |}.

(** The state is the number of calls answered so far ([t]).  [reset]
    shows the frame [[0; t]]; [step a] shows [[1 + a; t]], pays [t],
    and is [done] when [done_at t]; [lives_at t] lives are left. *)
Definition env (meanings : list string) (done_at : nat -> bool)
    (lives_at : nat -> Z) : @Env payload nat :=
  @mkEnv payload nat
    (fun t => (inr [0; Z.of_nat t], S t))
    (fun a t =>
       (inr (@mkStep payload [1 + a; Z.of_nat t] (Z.of_nat t) (done_at t) tt),
        S t))
    meanings
    lives_at
    (fun t => (Z.of_nat t, S t))
    [2]
    [].

Definition breakout_meanings : list string :=
  ["NOOP"; "FIRE"; "RIGHT"; "LEFT"]%string.

Definition pong_meanings : list string :=
  ["NOOP"; "UP"; "DOWN"]%string.

(** Never [done], three lives throughout. *)
Definition calm : @Env payload nat :=
  env breakout_meanings (fun _ => false) (fun _ => 3).

(** Every step is [done]. *)
Definition fragile : @Env payload nat :=
  env breakout_meanings (fun _ => true) (fun _ => 3).

(** A life is lost at the third call; the game is never over. *)
Definition losing : @Env payload nat :=
  env breakout_meanings (fun _ => false)
      (fun t => if (t <? 3)%nat then 3 else 2).

Lemma env_never_raises meanings done_at lives_at :
  @never_raises payload nat (env meanings done_at lives_at).
Proof.
  split; intros; simpl; eauto.
Qed.

End Scripted.

(** * Properties *)

Section Properties.
Context `{P : Payload}.

(** Unfolds the plumbing of the state and exception monad. *)
Ltac unfold_monad :=
  unfold bind, ret, raise, gets, modify, assert_, when, within in *.

(** ** What a logged environment does on one call *)

Lemma logged_reset {St} (E : Env St) s log :
  env_reset (Logged E) (s, log) =
  let (out, s') := env_reset E s in (out, (s', log ++ [CallReset out])).
Proof. reflexivity. Qed.

Lemma logged_step {St} (E : Env St) a s log :
  env_step (Logged E) a (s, log) =
  let (out, s') := env_step E a s in (out, (s', log ++ [CallStep a out])).
Proof. reflexivity. Qed.

Lemma logged_reset_ok {St} (E : Env St) s log o s' :
  env_reset E s = (inr o, s') ->
  env_reset (Logged E) (s, log) = (inr o, (s', log ++ [CallReset (inr o)])).
Proof. intros H. rewrite logged_reset, H. reflexivity. Qed.

Lemma logged_step_ok {St} (E : Env St) a s log r s' :
  env_step E a s = (inr r, s') ->
  env_step (Logged E) a (s, log) = (inr r, (s', log ++ [CallStep a (inr r)])).
Proof. intros H. rewrite logged_step, H. reflexivity. Qed.

(** ** EpisodicLifeEnv *)

(** C1. [EpisodicLifeEnv.step]: whatever the inner step gives back, the
    wrapper stores the inner [done] in [was_real_done], reads the current
    number of lives, returns [done = True] when the inner [done] is true
    or when [0 < current lives < stored lives] (the flag is forced exactly
    in that case), stores the current lives, and hands back the inner
    observation, reward and info. *)
Theorem EpisodicLifeEnv_step_spec {St} (E : Env St) (action : Z)
    (w : EpisodicLifeState St) (r : StepReturn) s' :
  env_step E action (el_env w) = (inr r, s') ->
  let cur := ale_lives E s' in
  let forced := (0 <? cur) && (cur <? lives w) in
  EpisodicLifeEnv_step E action w =
    (inr (mkStep (sr_obs r) (sr_reward r) (forced || sr_done r) (sr_info r)),
     mkEpisodic s' cur (sr_done r))
  /\ (forced = true <-> 0 < cur < lives w).
Proof.
  intros H cur forced. split.
  - unfold EpisodicLifeEnv_step, el_inner, set_was_real_done, set_lives.
    unfold_monad. rewrite H. cbn. fold cur. fold forced.
    destruct forced; reflexivity.
  - unfold forced. rewrite andb_true_iff, !Z.ltb_lt. tauto.
Qed.

(** C2. [EpisodicLifeEnv.reset]: after a real game over ([was_real_done])
    the inner environment receives exactly one [reset] and no step, and
    its observation is returned; after a life loss it receives no [reset]
    and exactly one [step(0)], whose observation is returned.  In both
    cases the stored lives are those the environment reports afterwards. *)
Theorem EpisodicLifeEnv_reset_spec {St} (E : Env St) s (log : list Call) (l : Z) :
  (forall o s', env_reset E s = (inr o, s') ->
     EpisodicLifeEnv_reset (Logged E) (mkEpisodic (s, log) l true) =
       (inr o,
        mkEpisodic (s', log ++ [CallReset (inr o)]) (ale_lives E s') true))
  /\
  (forall r s', env_step E 0 s = (inr r, s') ->
     EpisodicLifeEnv_reset (Logged E) (mkEpisodic (s, log) l false) =
       (inr (sr_obs r),
        mkEpisodic (s', log ++ [CallStep 0 (inr r)]) (ale_lives E s') false)).
Proof.
  split; intros x s' H;
    unfold EpisodicLifeEnv_reset, el_inner, set_lives; unfold_monad; cbn;
    rewrite H; reflexivity.
Qed.

(** ** MaxAndSkipEnv *)

(** One iteration of the loop of [step], for an inner step that answers. *)
Lemma skip_loop_iter {St} (E : Env St) skip action n i total last s log b0 b1 r s1 :
  env_step E action s = (inr r, s1) ->
  skip_loop (Logged E) skip action (S n) i total last
            (mkMaxAndSkip (s, log) (b0, b1)) =
  let w := mkMaxAndSkip (s1, log ++ [CallStep action (inr r)])
             (if i =? skip - 2 then sr_obs r else b0,
              if i =? skip - 1 then sr_obs r else b1) in
  let total := radd total (sr_reward r) in
  let last := Some (sr_done r, sr_info r) in
  if sr_done r then (inr (total, last), w)
  else skip_loop (Logged E) skip action n (i + 1) total last w.
Proof.
  intros H. cbn [skip_loop]. unfold ms_inner, set_slot0, set_slot1.
  unfold_monad. cbn -[skip_loop Z.sub Z.eqb]. rewrite H.
  destruct (i =? skip - 2), (i =? skip - 1), (sr_done r); reflexivity.
Qed.

(** The whole loop: the answers received, the accumulated reward, the
    last [done] and [info], and the buffer. *)
Lemma skip_loop_run {St} (E : Env St) skip action (HE : never_raises E) :
  forall n i total last s log b0 b1,
  exists rs s',
    skip_loop (Logged E) skip action n i total last
              (mkMaxAndSkip (s, log) (b0, b1)) =
      (inr (fold_left radd (map sr_reward rs) total, last_vars rs last),
       mkMaxAndSkip (s', log ++ step_calls action rs)
         (keyed (skip - 2) i rs b0, keyed (skip - 1) i rs b1))
    /\ skip_run n rs.
Proof.
  destruct HE as [_ Hstep].
  induction n as [|n IH]; intros i total last s log b0 b1.
  - exists [], s. cbn. rewrite app_nil_r. split; reflexivity.
  - destruct (Hstep action s) as (r & s1 & Hr).
    rewrite (skip_loop_iter _ _ _ _ _ _ _ _ _ _ _ _ _ Hr). cbv zeta.
    destruct (sr_done r) eqn:Hd.
    + exists [r], s1. cbn. rewrite Hd. split; reflexivity.
    + edestruct IH as (rs & s' & Hrun & Hrs). exists (r :: rs), s'.
      rewrite Hrun. cbn. rewrite Hd, <- app_assoc. split; [reflexivity|exact Hrs].
Qed.

Lemma skip_run_shape n rs :
  skip_run n rs -> n <> O ->
  exists rs0 rl,
    rs = rs0 ++ [rl]
    /\ Forall (fun r => sr_done r = false) rs0
    /\ (List.length rs <= n)%nat
    /\ ((List.length rs < n)%nat -> sr_done rl = true).
Proof.
  revert rs. induction n as [|n IH]; intros rs H Hn; [congruence|].
  destruct rs as [|r rs]; [contradiction|]. cbn in H.
  destruct (sr_done r) eqn:Hd.
  - subst rs. exists [], r. cbn. repeat split; auto; lia.
  - destruct n as [|n].
    + destruct rs; [|contradiction]. exists [], r. cbn. repeat split; auto; lia.
    + destruct (IH rs H) as (rs0 & rl & -> & Hall & Hlen & Hlast); [congruence|].
      exists (r :: rs0), rl. cbn. repeat split.
      * constructor; assumption.
      * lia.
      * intros. apply Hlast. lia.
Qed.

Lemma last_vars_snoc rs (rl : StepReturn) last :
  last_vars (rs ++ [rl]) last = Some (sr_done rl, sr_info rl).
Proof. unfold last_vars. rewrite fold_left_app. reflexivity. Qed.

Lemma nth_Z_cons {A} (x : A) l k :
  nth_Z (x :: l) k = if k =? 0 then Some x else nth_Z l (k - 1).
Proof.
  unfold nth_Z. destruct (k <? 0) eqn:Hk.
  - apply Z.ltb_lt in Hk. destruct (k =? 0) eqn:H0; [lia|].
    destruct (k - 1 <? 0) eqn:H1; [reflexivity|lia].
  - apply Z.ltb_ge in Hk. destruct (k =? 0) eqn:H0.
    + apply Z.eqb_eq in H0. subst. reflexivity.
    + apply Z.eqb_neq in H0. destruct (k - 1 <? 0) eqn:H1; [lia|].
      replace (Z.to_nat k) with (S (Z.to_nat (k - 1))) by lia. reflexivity.
Qed.

(** A slot holds the frame of its own iteration if that iteration ran,
    and what it held before otherwise. *)
Lemma keyed_nth k rs : forall i old,
  keyed k i rs old =
  match nth_Z rs (k - i) with Some r => sr_obs r | None => old end.
Proof.
  induction rs as [|r rs IH]; intros i old; cbn [keyed].
  - unfold nth_Z. destruct (k - i <? 0); [reflexivity|].
    destruct (Z.to_nat (k - i)); reflexivity.
  - rewrite IH, nth_Z_cons. replace (k - (i + 1)) with (k - i - 1) by lia.
    destruct (i =? k) eqn:Hik.
    + apply Z.eqb_eq in Hik. subst. replace (k - k) with 0 by lia. cbn.
      reflexivity.
    + apply Z.eqb_neq in Hik. destruct (k - i =? 0) eqn:H0; [lia|reflexivity].
Qed.

Lemma nth_Z_last {A} (l : list A) (x : A) :
  nth_Z (l ++ [x]) (Z.of_nat (List.length l)) = Some x.
Proof.
  unfold nth_Z. destruct (Z.of_nat (List.length l) <? 0) eqn:H;
    [apply Z.ltb_lt in H; lia|].
  rewrite Nat2Z.id, nth_error_app2, Nat.sub_diag; [reflexivity|lia].
Qed.

Lemma nth_Z_beyond {A} (l : list A) k :
  Z.of_nat (List.length l) <= k -> nth_Z l k = None.
Proof.
  intros H. unfold nth_Z. destruct (k <? 0); [reflexivity|].
  apply nth_error_None. lia.
Qed.

(** [MaxAndSkipEnv.step] for [skip >= 1] on an environment that answers:
    the steps taken, what is returned and what the buffer holds. *)
Lemma MaxAndSkipEnv_step_run {St} (E : Env St) skip action s log b :
  never_raises E -> 1 <= skip ->
  exists rs0 rl s',
    let rs := rs0 ++ [rl] in
    let b' := (match nth_Z rs (skip - 2) with
               | Some x => sr_obs x | None => fst b end,
               match nth_Z rs (skip - 1) with
               | Some x => sr_obs x | None => snd b end) in
    MaxAndSkipEnv_step (Logged E) skip action (mkMaxAndSkip (s, log) b) =
      (inr (mkStep (frame_max (fst b') (snd b'))
                   (fold_left radd (map sr_reward rs) rzero)
                   (sr_done rl) (sr_info rl)),
       mkMaxAndSkip (s', log ++ step_calls action rs) b')
    /\ Forall (fun r => sr_done r = false) rs0
    /\ Z.of_nat (List.length rs) <= skip
    /\ (Z.of_nat (List.length rs) < skip -> sr_done rl = true).
Proof.
  intros HE Hskip. destruct b as [b0 b1].
  destruct (skip_loop_run E skip action HE (Z.to_nat skip) 0 rzero None
              s log b0 b1) as (rs & s' & Hrun & Hrs).
  destruct (skip_run_shape _ _ Hrs) as (rs0 & rl & -> & Hall & Hlen & Hlast);
    [lia|].
  exists rs0, rl, s'. cbv zeta. repeat split.
  - unfold MaxAndSkipEnv_step. unfold_monad. rewrite Hrun.
    rewrite !keyed_nth, !Z.sub_0_r, last_vars_snoc. reflexivity.
  - exact Hall.
  - lia.
  - intros H. apply Hlast. lia.
Qed.

(** C3. [MaxAndSkipEnv.step] on an environment that answers, for
    [skip >= 1]: the inner environment receives the given action
    [len rs <= skip] times, where no answer but the last is [done] and
    fewer than [skip] steps are taken only if the last one is [done]; the
    reward returned is [0.0 + r0 + r1 + ...] over the rewards received,
    [done] and [info] are those of the last step; when all [skip] steps
    ran (and [skip >= 2], so that iteration [skip - 2] exists) the
    observation returned is the entrywise maximum of the frames received
    at iterations [skip - 2] and [skip - 1].  [reset] is the inner
    [reset]: one call, its outcome returned, the buffer untouched. *)
Theorem MaxAndSkipEnv_step_spec {St} (E : Env St) skip action s b :
  never_raises E -> 1 <= skip ->
  (exists rs0 rl s' b',
     let rs := rs0 ++ [rl] in
     MaxAndSkipEnv_step (Logged E) skip action (mkMaxAndSkip (s, []) b) =
       (inr (mkStep (frame_max (fst b') (snd b'))
                    (fold_left radd (map sr_reward rs) rzero)
                    (sr_done rl) (sr_info rl)),
        mkMaxAndSkip (s', step_calls action rs) b')
     /\ Forall (fun r => sr_done r = false) rs0
     /\ Z.of_nat (List.length rs) <= skip
     /\ (Z.of_nat (List.length rs) < skip -> sr_done rl = true)
     /\ (Z.of_nat (List.length rs) = skip -> 2 <= skip ->
         exists rp,
           nth_Z rs (skip - 2) = Some rp /\ nth_Z rs (skip - 1) = Some rl
           /\ b' = (sr_obs rp, sr_obs rl)))
  /\
  (forall log,
     env_reset (MaxAndSkipEnv (Logged E) skip) (mkMaxAndSkip (s, log) b) =
     let (out, s1) := env_reset E s in
     (out, mkMaxAndSkip (s1, log ++ [CallReset out]) b)).
Proof.
  intros HE Hskip. split.
  - destruct (MaxAndSkipEnv_step_run E skip action s [] b HE Hskip)
      as (rs0 & rl & s' & Hrun & Hall & Hlen & Hlast).
    cbv zeta in *. eexists rs0, rl, s', _. repeat split.
    + exact Hrun.
    + exact Hall.
    + exact Hlen.
    + exact Hlast.
    + intros Hfull H2. rewrite length_app in Hfull. cbn in Hfull.
      assert (Hl : skip - 1 = Z.of_nat (List.length rs0)) by lia.
      rewrite Hl, nth_Z_last.
      destruct (nth_Z (rs0 ++ [rl]) (skip - 2)) as [rp|] eqn:Hp.
      * exists rp. repeat split.
      * exfalso. unfold nth_Z in Hp.
        destruct (skip - 2 <? 0) eqn:Hneg; [apply Z.ltb_lt in Hneg; lia|].
        apply nth_error_None in Hp. rewrite length_app in Hp. cbn in Hp. lia.
  - intros log. cbn. unfold ms_inner, within. cbn.
    destruct (env_reset E s); reflexivity.
Qed.

(** C4. The two slots of the buffer of [MaxAndSkipEnv] are written at the
    iterations [skip - 2] and [skip - 1] of the configured [skip] and at
    no other: after [step], slot 0 holds the frame of iteration
    [skip - 2] if that iteration ran and its former content otherwise,
    slot 1 likewise for iteration [skip - 1], and the observation returned
    is the entrywise maximum of the two.  When the loop stops before
    iteration [skip - 2] the buffer is left as it was, and the observation
    is the maximum of what it held before the call; a new wrapper holds
    zeros in both slots. *)
Theorem MaxAndSkipEnv_buffer_keyed {St} (E : Env St) skip action s b :
  never_raises E -> 1 <= skip ->
  (exists rs r s' b',
     MaxAndSkipEnv_step (Logged E) skip action (mkMaxAndSkip (s, []) b) =
       (inr r, mkMaxAndSkip (s', step_calls action rs) b')
     /\ fst b' = match nth_Z rs (skip - 2) with
                 | Some x => sr_obs x | None => fst b end
     /\ snd b' = match nth_Z rs (skip - 1) with
                 | Some x => sr_obs x | None => snd b end
     /\ sr_obs r = frame_max (fst b') (snd b')
     /\ (Z.of_nat (List.length rs) < skip - 1 ->
         b' = b /\ sr_obs r = frame_max (fst b) (snd b)))
  /\
  (forall env : GymEnv,
     _obs_buffer (gym_state (MaxAndSkipEnv_init env skip)) =
     (np_zeros (observation_shape (gym_env env)),
      np_zeros (observation_shape (gym_env env)))).
Proof.
  intros HE Hskip. split; [|reflexivity].
  destruct (MaxAndSkipEnv_step_run E skip action s [] b HE Hskip)
    as (rs0 & rl & s' & Hrun & _).
  cbv zeta in Hrun. eexists (rs0 ++ [rl]), _, s', _. split; [exact Hrun|].
  cbn [fst snd sr_obs]. split; [reflexivity|]. split; [reflexivity|].
  split; [reflexivity|]. intros Hearly.
  rewrite !nth_Z_beyond by lia. destruct b; split; reflexivity.
Qed.

(** ** NoopResetEnv *)

(** The no-op loop on an environment that answers: [n] iterations, each a
    step, followed by a reset exactly when the step was [done]. *)
Lemma noop_loop_run {St} (E : Env St) (HE : never_raises E) :
  forall n obs0 s log,
  exists its s',
    noop_loop (Logged E) n obs0 (s, log) =
      (inr (fold_left (fun _ it => iter_obs it) its obs0),
       (s', log ++ flat_map iter_calls its))
    /\ List.length its = n /\ Forall iter_ok its.
Proof.
  destruct HE as [Hreset Hstep].
  induction n as [|n IH]; intros obs0 s log.
  - exists [], s. cbn. rewrite app_nil_r. repeat split. constructor.
  - destruct (Hstep noop_action s) as (r & s1 & Hr).
    cbn [noop_loop]. unfold bind at 1.
    rewrite (logged_step_ok _ _ _ log _ _ Hr).
    destruct (sr_done r) eqn:Hd.
    + destruct (Hreset s1) as (o & s2 & Ho). unfold bind at 1.
      rewrite (logged_reset_ok _ _ _ _ _ Ho).
      destruct (IH o s2 ((log ++ [CallStep noop_action (inr r)])
                           ++ [CallReset (inr o)]))
        as (its & s' & Hrun & Hlen & Hok).
      exists (Restart r o :: its), s'. rewrite Hrun. cbn.
      rewrite <- !app_assoc. cbn. repeat split.
      * lia.
      * constructor; assumption.
    + unfold bind at 1, ret.
      destruct (IH (sr_obs r) s1 (log ++ [CallStep noop_action (inr r)]))
        as (its & s' & Hrun & Hlen & Hok).
      exists (Alive r :: its), s'. rewrite Hrun. cbn.
      rewrite <- !app_assoc. cbn. repeat split.
      * lia.
      * constructor; assumption.
Qed.

(** [NoopResetEnv.reset] with a number of no-ops that passes the
    assertion: one reset, then that many iterations of the loop. *)
Lemma NoopResetEnv_reset_run {St} (E : Env St) noop_max override s :
  never_raises E -> noops_configured noop_max override ->
  exists o0 its s',
    NoopResetEnv_reset (Logged E) noop_max override (s, []) =
      (inr (fold_left (fun _ it => iter_obs it) its (np_zeros [0])),
       (s', CallReset (inr o0) :: flat_map iter_calls its))
    /\ Forall iter_ok its
    /\ match override with
       | Some n => Z.of_nat (List.length its) = n
       | None => 1 <= Z.of_nat (List.length its) <= noop_max
       end.
Proof.
  intros HE Hcfg. pose proof HE as [Hreset _].
  destruct (Hreset s) as (o0 & s1 & Ho).
  unfold NoopResetEnv_reset. unfold bind at 1.
  rewrite (logged_reset_ok _ _ _ _ _ Ho). cbn [app].
  destruct override as [n|]; cbn in Hcfg.
  - unfold bind at 1, ret. unfold assert_.
    replace (0 <? n) with true by (symmetry; apply Z.ltb_lt; exact Hcfg).
    unfold bind at 1, ret.
    destruct (noop_loop_run E HE (Z.to_nat n) (np_zeros [0]) s1
                [CallReset (inr o0)]) as (its & s' & Hrun & Hlen & Hok).
    exists o0, its, s'. rewrite Hrun. repeat split; [assumption|lia].
  - unfold bind at 1, np_randint.
    replace (1 <? noop_max + 1) with true by (symmetry; apply Z.ltb_lt; lia).
    cbn [np_random Logged fst snd].
    destruct (np_random E s1) as [raw s2].
    set (noops := 1 + raw mod (noop_max + 1 - 1)).
    assert (Hn : 1 <= noops <= noop_max).
    { unfold noops. replace (noop_max + 1 - 1) with noop_max by lia.
      pose proof (Z.mod_pos_bound raw noop_max). lia. }
    unfold assert_.
    replace (0 <? noops) with true by (symmetry; apply Z.ltb_lt; lia).
    unfold bind at 1, ret.
    destruct (noop_loop_run E HE (Z.to_nat noops) (np_zeros [0]) s2
                [CallReset (inr o0)]) as (its & s' & Hrun & Hlen & Hok).
    exists o0, its, s'. rewrite Hrun. repeat split; [assumption|lia|lia].
Qed.

Lemma iter_calls_steps its :
  count is_step (flat_map iter_calls its) = List.length its
  /\ step_actions (flat_map iter_calls its)
     = repeat noop_action (List.length its).
Proof.
  unfold count. induction its as [|[r|r o] its [IHc IHa]]; cbn;
    [split; reflexivity|..]; rewrite IHa; cbn in IHc; rewrite IHc;
    split; reflexivity.
Qed.

Lemma iter_calls_resets its :
  Forall iter_ok its ->
  count is_reset (flat_map iter_calls its)
  = count is_done_step (flat_map iter_calls its).
Proof.
  unfold count. induction 1 as [|[r|r o] its Hok _ IH]; cbn in *;
    [reflexivity|..]; rewrite Hok; cbn; rewrite IH; reflexivity.
Qed.

Lemma fold_iter_obs_snoc its it obs0 :
  fold_left (fun _ it => iter_obs it) (its ++ [it]) obs0 = iter_obs it.
Proof. rewrite fold_left_app. reflexivity. Qed.

(** C5, as the code has it.  [NoopResetEnv.reset], with a number of
    no-ops that passes the assertion and on an environment that answers,
    returns the observation of the last no-op step when that step leaves
    the episode open; when the last no-op step ends the episode, it
    returns the observation of the inner [reset] that follows that step,
    which is the last call the inner environment receives. *)
Theorem NoopResetEnv_reset_obs {St} (E : Env St) noop_max override s :
  never_raises E -> noops_configured noop_max override ->
  exists obs s' log,
    NoopResetEnv_reset (Logged E) noop_max override (s, []) =
      (inr obs, (s', log))
    /\ ((exists pre r,
           log = pre ++ [CallStep noop_action (inr r)]
           /\ sr_done r = false /\ obs = sr_obs r)
        \/
        (exists pre r,
           log = pre ++ [CallStep noop_action (inr r); CallReset (inr obs)]
           /\ sr_done r = true)).
Proof.
  intros HE Hcfg.
  destruct (NoopResetEnv_reset_run E noop_max override s HE Hcfg)
    as (o0 & its & s' & Hrun & Hok & Hlen).
  assert (Hne : its <> []).
  { intros ->. cbn in Hlen. destruct override; cbn in Hcfg; lia. }
  destruct (exists_last Hne) as (its0 & it & ->).
  do 3 eexists. split; [exact Hrun|].
  rewrite fold_iter_obs_snoc, flat_map_app. cbn [flat_map].
  rewrite app_nil_r, app_comm_cons.
  apply Forall_app in Hok as [_ Hit]. inversion Hit as [|? ? Hi _]; subst.
  destruct it as [r|r o]; cbn in Hi |- *.
  - left. exists (CallReset (inr o0) :: flat_map iter_calls its0), r.
    split; [reflexivity|]. split; [exact Hi|reflexivity].
  - right. exists (CallReset (inr o0) :: flat_map iter_calls its0), r.
    split; [reflexivity|exact Hi].
Qed.

(** C6. On an environment that answers, [NoopResetEnv.reset] first resets
    it and then runs the no-op loop: every iteration takes one step with
    action 0 and, exactly when that step is [done], one more reset, and
    goes on with the next iteration.  The number of steps is the
    override when there is one, and lies between 1 and [noop_max]
    otherwise; the inner environment is reset once more than there are
    [done] steps. *)
Theorem NoopResetEnv_reset_count {St} (E : Env St) noop_max override s :
  never_raises E -> noops_configured noop_max override ->
  exists obs s' o0 its,
    let log := CallReset (inr o0) :: flat_map iter_calls its in
    NoopResetEnv_reset (Logged E) noop_max override (s, []) =
      (inr obs, (s', log))
    /\ Forall iter_ok its
    /\ count is_step log = List.length its
    /\ step_actions log = repeat noop_action (List.length its)
    /\ match override with
       | Some n => Z.of_nat (count is_step log) = n
       | None => 1 <= Z.of_nat (count is_step log) <= noop_max
       end
    /\ count is_reset log = S (count is_done_step log).
Proof.
  intros HE Hcfg.
  destruct (NoopResetEnv_reset_run E noop_max override s HE Hcfg)
    as (o0 & its & s' & Hrun & Hok & Hlen).
  destruct (iter_calls_steps its) as [Hc Ha].
  pose proof (iter_calls_resets its Hok) as Hr.
  assert (Hsteps : count is_step (CallReset (inr o0) :: flat_map iter_calls its)
                   = List.length its) by exact Hc.
  eexists _, s', o0, its. cbv zeta. split; [exact Hrun|].
  split; [exact Hok|]. split; [exact Hsteps|]. split; [exact Ha|].
  split; [rewrite Hsteps; exact Hlen|].
  unfold count in *. cbn. rewrite Hr. reflexivity.
Qed.

(** ** FireResetEnv *)

(** [FireResetEnv.reset] on an environment that answers: the calls made
    and the observation returned. *)
Lemma FireResetEnv_reset_run {St} (E : Env St) s log :
  never_raises E ->
  exists o0 r1 o1 r2 o2 s',
    FireResetEnv_reset (Logged E) (s, log) =
      (inr (sr_obs r2),
       (s', log ++ fire_prefix o0 r1 o1 r2
               ++ (if sr_done r2 then [CallReset (inr o2)] else []))).
Proof.
  intros [Hreset Hstep]. unfold FireResetEnv_reset, fire_prefix.
  destruct (Hreset s) as (o0 & s0 & H0).
  unfold bind at 1. rewrite (logged_reset_ok _ _ _ _ _ H0).
  destruct (Hstep 1 s0) as (r1 & s1 & H1).
  unfold bind at 1. rewrite (logged_step_ok _ _ _ _ _ _ H1).
  destruct (sr_done r1) eqn:Hd1.
  - destruct (Hreset s1) as (o1 & s1' & H1').
    unfold bind at 1. unfold bind at 1.
    rewrite (logged_reset_ok _ _ _ _ _ H1'). unfold ret at 1.
    destruct (Hstep 2 s1') as (r2 & s2 & H2).
    unfold bind at 1. rewrite (logged_step_ok _ _ _ _ _ _ H2).
    destruct (sr_done r2) eqn:Hd2.
    + destruct (Hreset s2) as (o2 & s2' & H2').
      unfold bind at 1. unfold bind at 1.
      rewrite (logged_reset_ok _ _ _ _ _ H2'). unfold ret.
      exists o0, r1, o1, r2, o2, s2'. rewrite ?Hd1, ?Hd2, <- ?app_assoc. reflexivity.
    + unfold bind, ret.
      exists o0, r1, o1, r2, o0, s2. rewrite ?Hd1, ?Hd2, <- ?app_assoc. reflexivity.
  - unfold bind at 1. unfold ret at 1.
    destruct (Hstep 2 s1) as (r2 & s2 & H2).
    unfold bind at 1. rewrite (logged_step_ok _ _ _ _ _ _ H2).
    destruct (sr_done r2) eqn:Hd2.
    + destruct (Hreset s2) as (o2 & s2' & H2').
      unfold bind at 1. unfold bind at 1.
      rewrite (logged_reset_ok _ _ _ _ _ H2'). unfold ret.
      exists o0, r1, o0, r2, o2, s2'. rewrite ?Hd1, ?Hd2, <- ?app_assoc. reflexivity.
    + unfold bind, ret.
      exists o0, r1, o0, r2, o0, s2. rewrite ?Hd1, ?Hd2, <- ?app_assoc. reflexivity.
Qed.

(** C7. [FireResetEnv.reset] on an environment that answers: the inner
    environment is reset, then stepped with action 1; if that step is
    [done] it is reset once more; then it is stepped with action 2.  No
    other step is taken, and the observation returned is the one of the
    step with action 2, whatever its [done].  [step] is the inner
    [step]. *)
Theorem FireResetEnv_reset_spec {St} (E : Env St) s :
  never_raises E ->
  (exists o0 r1 o1 r2 rest s',
     let log := [CallReset (inr o0); CallStep 1 (inr r1)]
                ++ (if sr_done r1 then [CallReset (inr o1)] else [])
                ++ [CallStep 2 (inr r2)] ++ rest in
     FireResetEnv_reset (Logged E) (s, []) = (inr (sr_obs r2), (s', log))
     /\ step_actions log = [1; 2])
  /\ (forall action, env_step (FireResetEnv E) action = env_step E action).
Proof.
  intros HE. split; [|reflexivity].
  destruct (FireResetEnv_reset_run E s [] HE)
    as (o0 & r1 & o1 & r2 & o2 & s' & Hrun).
  exists o0, r1, o1, r2, (if sr_done r2 then [CallReset (inr o2)] else []), s'.
  cbv zeta. split.
  - rewrite Hrun. unfold fire_prefix. cbn [app].
    destruct (sr_done r1); reflexivity.
  - destruct (sr_done r1), (sr_done r2); reflexivity.
Qed.

(** C10. [FireResetEnv.reset] resets the inner environment once more
    after the step with action 2 exactly when that step is [done], and
    still returns the observation of that step: the inner environment is
    reset once, plus once for each of the two steps that is [done], hence
    three times when both are. *)
Theorem FireResetEnv_reset_trailing_reset {St} (E : Env St) s :
  never_raises E ->
  exists o0 r1 o1 r2 o2 s',
    let log := [CallReset (inr o0); CallStep 1 (inr r1)]
               ++ (if sr_done r1 then [CallReset (inr o1)] else [])
               ++ [CallStep 2 (inr r2)]
               ++ (if sr_done r2 then [CallReset (inr o2)] else []) in
    FireResetEnv_reset (Logged E) (s, []) = (inr (sr_obs r2), (s', log))
    /\ count is_reset log
       = (1 + (if sr_done r1 then 1 else 0) + (if sr_done r2 then 1 else 0))%nat
    /\ (sr_done r1 = true -> sr_done r2 = true -> count is_reset log = 3%nat).
Proof.
  intros HE.
  destruct (FireResetEnv_reset_run E s [] HE)
    as (o0 & r1 & o1 & r2 & o2 & s' & Hrun).
  exists o0, r1, o1, r2, o2, s'. cbv zeta. split; [|split].
  - rewrite Hrun. unfold fire_prefix. cbn [app].
    destruct (sr_done r1); reflexivity.
  - destruct (sr_done r1), (sr_done r2); reflexivity.
  - intros -> ->. reflexivity.
Qed.

(** ** Construction *)

Lemma list_index_Some {A} (l : list A) i a :
  nth_error l i = Some a -> list_index l i = inr a.
Proof. unfold list_index. intros ->. reflexivity. Qed.

Lemma list_index_None {A} (l : list A) i :
  nth_error l i = None ->
  list_index l i = inl (IndexError "list index out of range").
Proof. unfold list_index. intros ->. reflexivity. Qed.

(** C8, as the code has it.  Constructing [NoopResetEnv] fails whenever
    the action meaning at index 0 is not "NOOP", and constructing
    [FireResetEnv] fails whenever the meaning at index 1 is not "FIRE" or
    there are fewer than 3 actions; otherwise both succeed.  A failure
    yields no wrapper.  It is raised by an [assert] without a message (an
    [AssertionError] carrying none), or by the list lookup (an
    [IndexError]) when there is no action at the index looked at. *)
Theorem construction_fails_fast (env : GymEnv) (noop_max : Z)
    (override : option Z) :
  let meanings := get_action_meanings (gym_env env) in
  (nth_error meanings 0 <> Some "NOOP"%string ->
   exists e,
     NoopResetEnv_init env noop_max override = inl e
     /\ match nth_error meanings 0 with
        | Some _ => e = AssertionError None
        | None => e = IndexError "list index out of range"
        end)
  /\
  (nth_error meanings 1 <> Some "FIRE"%string
   \/ (List.length meanings < 3)%nat ->
   exists e,
     FireResetEnv_init env = inl e
     /\ match nth_error meanings 1 with
        | Some _ => e = AssertionError None
        | None => e = IndexError "list index out of range"
        end)
  /\
  (nth_error meanings 0 = Some "NOOP"%string ->
   exists w, NoopResetEnv_init env noop_max override = inr w)
  /\
  (nth_error meanings 1 = Some "FIRE"%string ->
   (3 <= List.length meanings)%nat ->
   exists w, FireResetEnv_init env = inr w)
  /\ exn_message (AssertionError None) = None.
Proof.
  intros meanings. repeat split.
  - intros Hnot. unfold NoopResetEnv_init. fold meanings.
    destruct (nth_error meanings 0) as [m|] eqn:Hm.
    + rewrite (list_index_Some _ _ _ Hm). cbn.
      destruct (String.eqb m "NOOP") eqn:Heq.
      * apply String.eqb_eq in Heq. congruence.
      * eexists. split; reflexivity.
    + rewrite (list_index_None _ _ Hm). eexists. split; reflexivity.
  - intros Hnot. unfold FireResetEnv_init. fold meanings.
    destruct (nth_error meanings 1) as [m|] eqn:Hm.
    + rewrite (list_index_Some _ _ _ Hm). cbn.
      destruct (String.eqb m "FIRE") eqn:Heq; cbn.
      * apply String.eqb_eq in Heq. subst m.
        destruct Hnot as [Hnot|Hlen]; [congruence|].
        destruct (3 <=? Z.of_nat (List.length meanings)) eqn:Hle;
          [apply Z.leb_le in Hle; lia|].
        eexists. split; reflexivity.
      * eexists. split; reflexivity.
    + rewrite (list_index_None _ _ Hm). eexists. split; reflexivity.
  - intros Hm. unfold NoopResetEnv_init. fold meanings.
    rewrite (list_index_Some _ _ _ Hm). cbn. eexists. reflexivity.
  - intros Hm Hlen. unfold FireResetEnv_init. fold meanings.
    rewrite (list_index_Some _ _ _ Hm). cbn.
    destruct (3 <=? Z.of_nat (List.length meanings)) eqn:Hle;
      [|apply Z.leb_gt in Hle; lia].
    eexists. reflexivity.
Qed.

Lemma inr_eq {A B} (x y : B) : @inr A B x = inr y -> x = y.
Proof. intros H. injection H as ->. reflexivity. Qed.

Lemma NoopResetEnv_init_inr (env w : GymEnv) noop_max override :
  NoopResetEnv_init env noop_max override = inr w ->
  w = NoopResetEnv_obj env noop_max override.
Proof.
  unfold NoopResetEnv_init, cbind.
  destruct (list_index _ 0); [discriminate|].
  destruct (String.eqb _ _); [|discriminate].
  intros H. apply inr_eq in H. subst w. reflexivity.
Qed.

Lemma FireResetEnv_init_inr (env w : GymEnv) :
  FireResetEnv_init env = inr w -> w = FireResetEnv_obj env.
Proof.
  unfold FireResetEnv_init, cbind.
  destruct (list_index _ 1); [discriminate|].
  destruct (negb (String.eqb _ _)); [discriminate|].
  destruct (negb (3 <=? _)); [discriminate|].
  intros H. apply inr_eq in H. subst w. reflexivity.
Qed.

(** The action meanings seen through the inner wrappers are those of
    the environment given to the builder. *)
Lemma meanings_before_fire (raw : GymEnv) noop_max override skip (b : bool) :
  get_action_meanings
    (gym_env (wrap_if b EpisodicLifeEnv_init
                (MaxAndSkipEnv_init
                   (NoopResetEnv_obj raw noop_max override) skip)))
  = get_action_meanings (gym_env raw).
Proof. destruct b; reflexivity. Qed.

(** The object built by [AtariWrapper], when it is built. *)
Lemma AtariWrapper_init_inr (raw : GymEnv) (c : AtariConfig) (w : GymEnv) :
  AtariWrapper_init raw c = inr w ->
  w = AtariWrapper_obj
        (wrap_if (clip_reward c) ClipRewardEnv_init
          (WarpFrame_init
            (wrap_if (str_in "FIRE" (get_action_meanings (gym_env raw)))
               FireResetEnv_obj
              (wrap_if (terminal_on_life_loss c) EpisodicLifeEnv_init
                (MaxAndSkipEnv_init
                  (NoopResetEnv_obj raw (noop_max c) (override_num_noops c))
                  (frame_skip c))))
            (screen_size c) (screen_size c) (region c))).
Proof.
  intros H. unfold AtariWrapper_init in H.
  destruct (NoopResetEnv_init raw (noop_max c) (override_num_noops c))
    as [e|env1] eqn:Hnoop; [discriminate H|].
  apply NoopResetEnv_init_inr in Hnoop. subst env1. unfold cbind at 1 in H.
  fold (wrap_if (terminal_on_life_loss c) EpisodicLifeEnv_init
          (MaxAndSkipEnv_init
             (NoopResetEnv_obj raw (noop_max c) (override_num_noops c))
             (frame_skip c))) in H.
  rewrite meanings_before_fire in H.
  destruct (str_in "FIRE" (get_action_meanings (gym_env raw))).
  - destruct (FireResetEnv_init _) as [e|env4] eqn:Hfire in H;
      [discriminate H|].
    apply FireResetEnv_init_inr in Hfire. subst env4.
    unfold cbind in H. apply inr_eq in H. subst w. reflexivity.
  - unfold cbind in H. apply inr_eq in H. subst w. reflexivity.
Qed.

Lemma chain_wrap_if_ClipRewardEnv b env :
  env_chain (gym_env (wrap_if b ClipRewardEnv_init env))
  = (if b then [L_ClipRewardEnv] else []) ++ env_chain (gym_env env).
Proof. destruct b; reflexivity. Qed.

Lemma chain_wrap_if_FireResetEnv b env :
  env_chain (gym_env (wrap_if b FireResetEnv_obj env))
  = (if b then [L_FireResetEnv] else []) ++ env_chain (gym_env env).
Proof. destruct b; reflexivity. Qed.

Lemma chain_wrap_if_EpisodicLifeEnv b env :
  env_chain (gym_env (wrap_if b EpisodicLifeEnv_init env))
  = (if b then [L_EpisodicLifeEnv] else []) ++ env_chain (gym_env env).
Proof. destruct b; reflexivity. Qed.

Lemma chain_AtariWrapper env :
  env_chain (gym_env (AtariWrapper_obj env))
  = L_AtariWrapper :: env_chain (gym_env env).
Proof. reflexivity. Qed.

Lemma chain_WarpFrame env width height rg :
  env_chain (gym_env (WarpFrame_init env width height rg))
  = L_WarpFrame width height rg :: env_chain (gym_env env).
Proof. reflexivity. Qed.

Lemma chain_MaxAndSkipEnv env skip :
  env_chain (gym_env (MaxAndSkipEnv_init env skip))
  = L_MaxAndSkipEnv skip :: env_chain (gym_env env).
Proof. reflexivity. Qed.

Lemma chain_NoopResetEnv env noop_max override :
  env_chain (gym_env (NoopResetEnv_obj env noop_max override))
  = L_NoopResetEnv noop_max override :: env_chain (gym_env env).
Proof. reflexivity. Qed.

(** C9. When [AtariWrapper] is constructed, what it holds is the given
    environment wrapped, from the inside out, in [NoopResetEnv], then
    [MaxAndSkipEnv], then [EpisodicLifeEnv] if and only if
    [terminal_on_life_loss], then [FireResetEnv] if and only if "FIRE" is
    among the action meanings of the environment, then [WarpFrame], then
    [ClipRewardEnv] if and only if [clip_reward], and nothing else: both
    as the classes met going down from the object and as the object
    itself. *)
Theorem AtariWrapper_layers (raw : GymEnv) (c : AtariConfig) (w : GymEnv) :
  AtariWrapper_init raw c = inr w ->
  let fire := str_in "FIRE" (get_action_meanings (gym_env raw)) in
  env_chain (gym_env w) =
    L_AtariWrapper
    :: (if clip_reward c then [L_ClipRewardEnv] else [])
    ++ [L_WarpFrame (screen_size c) (screen_size c) (region c)]
    ++ (if fire then [L_FireResetEnv] else [])
    ++ (if terminal_on_life_loss c then [L_EpisodicLifeEnv] else [])
    ++ [L_MaxAndSkipEnv (frame_skip c);
        L_NoopResetEnv (noop_max c) (override_num_noops c)]
    ++ env_chain (gym_env raw)
  /\
  w = AtariWrapper_obj
        (wrap_if (clip_reward c) ClipRewardEnv_init
          (WarpFrame_init
            (wrap_if fire FireResetEnv_obj
              (wrap_if (terminal_on_life_loss c) EpisodicLifeEnv_init
                (MaxAndSkipEnv_init
                  (NoopResetEnv_obj raw (noop_max c) (override_num_noops c))
                  (frame_skip c))))
            (screen_size c) (screen_size c) (region c))).
Proof.
  intros H fire. pose proof (AtariWrapper_init_inr raw c w H) as Hw.
  fold fire in Hw. split; [|exact Hw].
  rewrite Hw, chain_AtariWrapper, chain_wrap_if_ClipRewardEnv,
    chain_WarpFrame, chain_wrap_if_FireResetEnv,
    chain_wrap_if_EpisodicLifeEnv, chain_MaxAndSkipEnv, chain_NoopResetEnv.
  reflexivity.
Qed.

End Properties.

(** * Further properties: failures, edge cases and sequences of calls *)

Section EdgeCases.
Context `{P : Payload}.

Ltac unfold_monad :=
  unfold bind, ret, raise, gets, modify, assert_, when, within in *.

(** The call [c] raised [e]. *)
Definition call_raised (c : Call) (e : exn) : Prop :=
  match c with
  | CallReset (inl e') => e' = e
  | CallStep _ (inl e') => e' = e
  | _ => False
  end.

(** [E] with another random source. *)
Definition with_random {St} (E : Env St) (rnd : St -> Z * St) : Env St :=
  {| env_reset := env_reset E;
     env_step := env_step E;
     get_action_meanings := get_action_meanings E;
     ale_lives := ale_lives E;
     np_random := rnd;
     observation_shape := observation_shape E;
     env_chain := env_chain E |}.

(** ** NoopResetEnv *)

(** X1. An override that is not positive fails [assert noops > 0]: the
    inner environment has been reset once and is not stepped. *)
Theorem NoopResetEnv_reset_nonpositive_override {St} (E : Env St)
    noop_max n s o s1 :
  n <= 0 ->
  env_reset E s = (inr o, s1) ->
  NoopResetEnv_reset (Logged E) noop_max (Some n) (s, []) =
    (inl (AssertionError None), (s1, [CallReset (inr o)])).
Proof.
  intros Hn Ho. unfold NoopResetEnv_reset. unfold bind at 1.
  rewrite (logged_reset_ok _ _ _ _ _ Ho). cbn [app].
  unfold bind at 1, ret. unfold assert_.
  replace (0 <? n) with false by (symmetry; apply Z.ltb_ge; exact Hn).
  reflexivity.
Qed.

(** X2. Without an override, [noop_max < 1] makes the draw
    [randint(1, noop_max + 1)] raise [ValueError]: the inner environment
    has been reset once, is not stepped, and no number is drawn. *)
Theorem NoopResetEnv_reset_empty_range {St} (E : Env St) noop_max s o s1 :
  noop_max < 1 ->
  env_reset E s = (inr o, s1) ->
  NoopResetEnv_reset (Logged E) noop_max None (s, []) =
    (inl (ValueError "low >= high"), (s1, [CallReset (inr o)])).
Proof.
  intros Hn Ho. unfold NoopResetEnv_reset. unfold bind at 1.
  rewrite (logged_reset_ok _ _ _ _ _ Ho). cbn [app].
  unfold bind at 1, np_randint.
  replace (1 <? noop_max + 1) with false by (symmetry; apply Z.ltb_ge; lia).
  reflexivity.
Qed.

Lemma noop_loop_with_random {St} (E : Env St) rnd n :
  forall obs s,
    noop_loop (with_random E rnd) n obs s = noop_loop E n obs s.
Proof.
  induction n as [|n IH]; intros obs s; [reflexivity|].
  cbn [noop_loop]. unfold bind.
  change (env_step (with_random E rnd)) with (env_step E).
  change (env_reset (with_random E rnd)) with (env_reset E).
  destruct (env_step E noop_action s) as [[e|r] s1]; [reflexivity|].
  destruct (sr_done r).
  - destruct (env_reset E s1) as [[e|o] s2]; [reflexivity|]. apply IH.
  - unfold ret. apply IH.
Qed.

(** X3. With an override the random source is not consulted: [reset]
    does the same whatever the random source of the environment is. *)
Theorem NoopResetEnv_reset_override_ignores_random {St} (E : Env St)
    (rnd : St -> Z * St) noop_max n s :
  NoopResetEnv_reset (with_random E rnd) noop_max (Some n) s =
  NoopResetEnv_reset E noop_max (Some n) s.
Proof.
  unfold NoopResetEnv_reset, bind.
  change (env_reset (with_random E rnd)) with (env_reset E).
  destruct (env_reset E s) as [[e|o] s1]; [reflexivity|].
  unfold ret. destruct (assert_ (0 <? n) s1) as [[e|u] s2]; [reflexivity|].
  apply noop_loop_with_random.
Qed.

(** An exception out of the no-op loop is the one of the last call the
    inner environment received. *)
Lemma noop_loop_raises {St} (E : Env St) e :
  forall n obs s log s' log',
    noop_loop (Logged E) n obs (s, log) = (inl e, (s', log')) ->
    exists pre c, log' = pre ++ [c] /\ call_raised c e.
Proof.
  induction n as [|n IH]; intros obs s log s' log' H; [discriminate H|].
  cbn [noop_loop] in H. unfold bind at 1 in H. rewrite logged_step in H.
  destruct (env_step E noop_action s) as [[e1|r] s1].
  - apply pair_equal_spec in H as [He Hs]. apply pair_equal_spec in Hs as [_ <-].
    injection He as ->. eexists _, _. split; [reflexivity|reflexivity].
  - destruct (sr_done r).
    + unfold bind at 1 in H. rewrite logged_reset in H.
      destruct (env_reset E s1) as [[e2|o] s2].
      * apply pair_equal_spec in H as [He Hs].
        apply pair_equal_spec in Hs as [_ <-].
        injection He as ->. eexists _, _. split; [reflexivity|reflexivity].
      * exact (IH _ _ _ _ _ H).
    + unfold bind at 1, ret in H. exact (IH _ _ _ _ _ H).
Qed.

(** X4. [NoopResetEnv.reset] neither retries nor hides a failure: when
    it raises, either the last call received by the inner environment
    raised that very exception, or the inner environment was reset once,
    not stepped, and the exception is the failed assertion on the number
    of no-ops or the [ValueError] of the draw. *)
Theorem NoopResetEnv_reset_raises {St} (E : Env St) noop_max override
    s e s' log :
  NoopResetEnv_reset (Logged E) noop_max override (s, []) =
    (inl e, (s', log)) ->
  (exists pre c, log = pre ++ [c] /\ call_raised c e)
  \/ (exists o, log = [CallReset (inr o)]
                /\ (e = AssertionError None \/ e = ValueError "low >= high")).
Proof.
  unfold NoopResetEnv_reset. unfold bind at 1. rewrite logged_reset.
  destruct (env_reset E s) as [[e0|o] s1]; cbn [fst snd app].
  - intros H. apply pair_equal_spec in H as [He Hs].
    apply pair_equal_spec in Hs as [_ <-]. injection He as ->.
    left. exists [], (CallReset (inl e)). split; reflexivity.
  - unfold bind at 1.
    destruct override as [n|].
    + unfold ret at 1. unfold bind at 1, assert_.
      destruct (0 <? n).
      * unfold ret at 1. intros H. left. exact (noop_loop_raises _ _ _ _ _ _ _ _ H).
      * unfold raise. intros H. apply pair_equal_spec in H as [He Hs].
        apply pair_equal_spec in Hs as [_ <-]. injection He as <-.
        right. exists o. split; [reflexivity|left; reflexivity].
    + unfold np_randint. destruct (1 <? noop_max + 1).
      * cbn [np_random Logged fst snd].
        destruct (np_random E s1) as [raw s2].
        unfold bind at 1, assert_.
        destruct (0 <? 1 + raw mod (noop_max + 1 - 1)).
        -- unfold ret at 1. intros H. left.
           exact (noop_loop_raises _ _ _ _ _ _ _ _ H).
        -- unfold raise. intros H. apply pair_equal_spec in H as [He Hs].
           apply pair_equal_spec in Hs as [_ <-]. injection He as <-.
           right. exists o. split; [reflexivity|left; reflexivity].
      * intros H. apply pair_equal_spec in H as [He Hs].
        apply pair_equal_spec in Hs as [_ <-]. injection He as <-.
        right. exists o. split; [reflexivity|right; reflexivity].
Qed.

(** ** MaxAndSkipEnv *)

(** X5. With [skip <= 0] the loop of [step] does not run, and the
    [return] statement reads [info], which was never assigned: [step]
    raises [UnboundLocalError] without calling the inner environment or
    touching the buffer. *)
Theorem MaxAndSkipEnv_step_no_iteration {St} (E : Env St) skip action
    (w : MaxAndSkipState (St * list Call)) :
  skip <= 0 ->
  MaxAndSkipEnv_step (Logged E) skip action w =
    (inl (UnboundLocalError
            "local variable 'info' referenced before assignment"), w).
Proof.
  intros Hskip. unfold MaxAndSkipEnv_step.
  replace (Z.to_nat skip) with O by lia. reflexivity.
Qed.

Lemma frame_max_zeros (f : Frame) :
  Forall (fun x => 0 <= x) f ->
  frame_max (repeat 0 (List.length f)) f = f.
Proof.
  induction 1 as [|x f Hx _ IH]; cbn; [reflexivity|].
  rewrite IH, Z.max_r by exact Hx. reflexivity.
Qed.

(** X6. With [skip = 1] there is no iteration [skip - 2]: slot 0 is never
    written, one inner step is taken, and the observation returned is the
    entrywise maximum of its frame and of what slot 0 holds.  On a buffer
    still holding its initial zeros, and for a frame of the declared size
    with no negative entry, that is the frame itself. *)
Theorem MaxAndSkipEnv_step_skip_one {St} (E : Env St) action s log b0 b1
    rl s' :
  env_step E action s = (inr rl, s') ->
  MaxAndSkipEnv_step (Logged E) 1 action (mkMaxAndSkip (s, log) (b0, b1)) =
    (inr (mkStep (frame_max b0 (sr_obs rl)) (radd rzero (sr_reward rl))
                 (sr_done rl) (sr_info rl)),
     mkMaxAndSkip (s', log ++ [CallStep action (inr rl)]) (b0, sr_obs rl))
  /\ (b0 = repeat 0 (List.length (sr_obs rl)) ->
      Forall (fun x => 0 <= x) (sr_obs rl) ->
      frame_max b0 (sr_obs rl) = sr_obs rl).
Proof.
  intros Hr. split.
  - unfold MaxAndSkipEnv_step. unfold bind at 1.
    change (Z.to_nat 1) with 1%nat.
    rewrite (skip_loop_iter _ _ _ _ _ _ _ _ _ _ _ _ _ Hr). cbv zeta.
    change (0 =? 1 - 2) with false. change (0 =? 1 - 1) with true.
    cbn [skip_loop]. destruct (sr_done rl); reflexivity.
  - intros -> Hpos. apply frame_max_zeros. exact Hpos.
Qed.

(** X7. The observation of a step that stops before iteration [skip - 2]
    is the observation of the step before it: the buffer still holds the
    frames of that earlier step, and the frames of the short step are in
    neither the buffer nor the observation. *)
Theorem MaxAndSkipEnv_early_stop_repeats_obs {St} (E : Env St) skip a1 a2
    s0 b0 r1 s1 log1 b1 r2 s2 log2 b2 :
  never_raises E -> 1 <= skip ->
  MaxAndSkipEnv_step (Logged E) skip a1 (mkMaxAndSkip (s0, []) b0) =
    (inr r1, mkMaxAndSkip (s1, log1) b1) ->
  MaxAndSkipEnv_step (Logged E) skip a2 (mkMaxAndSkip (s1, []) b1) =
    (inr r2, mkMaxAndSkip (s2, log2) b2) ->
  Z.of_nat (List.length log2) < skip - 1 ->
  sr_obs r2 = sr_obs r1 /\ b2 = b1.
Proof.
  intros HE Hskip H1 H2 Hshort.
  destruct (MaxAndSkipEnv_step_run E skip a1 s0 [] b0 HE Hskip)
    as (rs0 & rl & s1' & Hrun1 & _).
  destruct (MaxAndSkipEnv_step_run E skip a2 s1 [] b1 HE Hskip)
    as (rs0' & rl' & s2' & Hrun2 & _).
  cbv zeta in Hrun1, Hrun2. rewrite H1 in Hrun1. rewrite H2 in Hrun2.
  apply pair_equal_spec in Hrun1 as [Hr1 Hw1].
  apply pair_equal_spec in Hrun2 as [Hr2 Hw2].
  injection Hr1 as ->. injection Hr2 as ->.
  injection Hw1 as _ _ Hb1. injection Hw2 as _ Hlog2 Hb2.
  cbn [app] in Hlog2. subst log2.
  unfold step_calls in Hshort. rewrite length_map in Hshort.
  rewrite !nth_Z_beyond in Hb2 by lia.
  rewrite <- surjective_pairing in Hb2.
  cbn [sr_obs]. rewrite !nth_Z_beyond by lia. split.
  - rewrite Hb1. cbn [fst snd]. reflexivity.
  - exact Hb2.
Qed.

(** One iteration of the loop of [step], for an inner step that raises. *)
Lemma skip_loop_iter_raise {St} (E : Env St) skip action n i total last
    s log b e s1 :
  env_step E action s = (inl e, s1) ->
  skip_loop (Logged E) skip action (S n) i total last
            (mkMaxAndSkip (s, log) b) =
  (inl e, mkMaxAndSkip (s1, log ++ [CallStep action (inl e)]) b).
Proof.
  intros H. cbn [skip_loop]. unfold ms_inner. unfold_monad.
  cbn -[skip_loop Z.sub Z.eqb]. rewrite H. reflexivity.
Qed.

Lemma skip_loop_raises {St} (E : Env St) skip action e :
  forall n i total last s log b0 b1 w',
    skip_loop (Logged E) skip action n i total last
              (mkMaxAndSkip (s, log) (b0, b1)) = (inl e, w') ->
    exists rs s',
      ms_env w' = (s', log ++ step_calls action rs ++ [CallStep action (inl e)])
      /\ Forall (fun r => sr_done r = false) rs.
Proof.
  induction n as [|n IH]; intros i total last s log b0 b1 w' H;
    [discriminate H|].
  destruct (env_step E action s) as [[e1|r] s1] eqn:Hr.
  - rewrite (skip_loop_iter_raise _ _ _ _ _ _ _ _ _ _ _ _ Hr) in H.
    apply pair_equal_spec in H as [He <-]. injection He as ->.
    exists [], s1. split; [reflexivity|constructor].
  - rewrite (skip_loop_iter _ _ _ _ _ _ _ _ _ _ _ _ _ Hr) in H.
    cbv zeta in H. destruct (sr_done r) eqn:Hd; [discriminate H|].
    destruct (IH _ _ _ _ _ _ _ _ H) as (rs & s' & Hlog & Hall).
    exists (r :: rs), s'. split.
    + rewrite Hlog, <- app_assoc. reflexivity.
    + constructor; assumption.
Qed.

Lemma skip_loop_binds_info {St} (E : Env St) skip action :
  forall n i total last w vars w',
    skip_loop E skip action n i total last w = (inr vars, w') ->
    n <> O \/ last <> None ->
    snd vars <> None.
Proof.
  induction n as [|n IH]; intros i total last w vars w' H Hn.
  - injection H as <- _. destruct Hn as [Hn|Hn]; [congruence|exact Hn].
  - cbn [skip_loop] in H. unfold bind at 1 in H.
    destruct (ms_inner (env_step E action) w) as [[e|r] w1];
      [discriminate H|].
    unfold bind at 1 in H.
    destruct (when (i =? skip - 2) (set_slot0 (sr_obs r)) w1) as [[e|u] w2];
      [discriminate H|].
    unfold bind at 1 in H.
    destruct (when (i =? skip - 1) (set_slot1 (sr_obs r)) w2) as [[e|u'] w3];
      [discriminate H|].
    destruct (sr_done r).
    + injection H as <- _. discriminate.
    + apply (IH _ _ _ _ _ _ H). right. discriminate.
Qed.

(** X8. [MaxAndSkipEnv.step] neither retries nor hides a failure: for
    [skip >= 1], when it raises, the exception is the one raised by the
    last inner step, every step before it answered without [done], and
    the inner environment received nothing after it. *)
Theorem MaxAndSkipEnv_step_raises {St} (E : Env St) skip action s b e w' :
  1 <= skip ->
  MaxAndSkipEnv_step (Logged E) skip action (mkMaxAndSkip (s, []) b) =
    (inl e, w') ->
  exists rs s',
    ms_env w' = (s', step_calls action rs ++ [CallStep action (inl e)])
    /\ Forall (fun r => sr_done r = false) rs.
Proof.
  intros Hskip H. destruct b as [b0 b1]. unfold MaxAndSkipEnv_step in H.
  unfold bind at 1 in H.
  destruct (skip_loop (Logged E) skip action (Z.to_nat skip) 0 rzero None
              (mkMaxAndSkip (s, []) (b0, b1))) as [[e1|vars] w1] eqn:Hloop.
  - apply pair_equal_spec in H as [He <-]. injection He as ->.
    exact (skip_loop_raises _ _ _ _ _ _ _ _ _ _ _ _ _ Hloop).
  - exfalso.
    assert (Hinfo : snd vars <> None).
    { apply (skip_loop_binds_info _ _ _ _ _ _ _ _ _ _ Hloop). left. lia. }
    unfold bind at 1, gets in H.
    destruct (snd vars) as [[d inf]|]; [discriminate H|congruence].
Qed.

(** ** EpisodicLifeEnv *)

(** [step] and [reset] of [EpisodicLifeEnv] over a logged environment,
    for inner calls that answer. *)
Lemma EpisodicLifeEnv_step_run {St} (E : Env St) action s log l b r s1 :
  env_step E action s = (inr r, s1) ->
  EpisodicLifeEnv_step (Logged E) action (mkEpisodic (s, log) l b) =
    (inr (mkStep (sr_obs r) (sr_reward r)
                 (if (0 <? ale_lives E s1) && (ale_lives E s1 <? l)
                  then true else sr_done r)
                 (sr_info r)),
     mkEpisodic (s1, log ++ [CallStep action (inr r)]) (ale_lives E s1)
                (sr_done r)).
Proof.
  intros H. unfold EpisodicLifeEnv_step, el_inner, set_was_real_done,
    set_lives. unfold_monad. cbn. rewrite H. reflexivity.
Qed.

Lemma EpisodicLifeEnv_reset_real {St} (E : Env St) s log l o s1 :
  env_reset E s = (inr o, s1) ->
  EpisodicLifeEnv_reset (Logged E) (mkEpisodic (s, log) l true) =
    (inr o, mkEpisodic (s1, log ++ [CallReset (inr o)]) (ale_lives E s1) true).
Proof.
  intros H. unfold EpisodicLifeEnv_reset, el_inner, set_lives. unfold_monad.
  cbn. rewrite H. reflexivity.
Qed.

Lemma EpisodicLifeEnv_reset_life {St} (E : Env St) s log l r s1 :
  env_step E 0 s = (inr r, s1) ->
  EpisodicLifeEnv_reset (Logged E) (mkEpisodic (s, log) l false) =
    (inr (sr_obs r),
     mkEpisodic (s1, log ++ [CallStep 0 (inr r)]) (ale_lives E s1) false).
Proof.
  intros H. unfold EpisodicLifeEnv_reset, el_inner, set_lives. unfold_monad.
  cbn. rewrite H. reflexivity.
Qed.

(** X9. A life lost without a game over, then [reset]: the step returns
    [done = True] although the inner step did not, and the [reset] that
    follows does not reset the inner environment but takes one no-op
    step and returns its observation. *)
Theorem EpisodicLifeEnv_life_loss_then_reset {St} (E : Env St) action s l b
    r s1 r0 s2 :
  env_step E action s = (inr r, s1) ->
  sr_done r = false ->
  0 < ale_lives E s1 < l ->
  env_step E 0 s1 = (inr r0, s2) ->
  exists w1,
    EpisodicLifeEnv_step (Logged E) action (mkEpisodic (s, []) l b) =
      (inr (mkStep (sr_obs r) (sr_reward r) true (sr_info r)), w1)
    /\ EpisodicLifeEnv_reset (Logged E) w1 =
         (inr (sr_obs r0),
          mkEpisodic (s2, [CallStep action (inr r); CallStep 0 (inr r0)])
                     (ale_lives E s2) false).
Proof.
  intros Hr Hd Hl Hr0.
  pose proof (EpisodicLifeEnv_step_run E action s [] l b r s1 Hr) as Hstep.
  replace ((0 <? ale_lives E s1) && (ale_lives E s1 <? l)) with true in Hstep
    by (symmetry; apply andb_true_iff; rewrite !Z.ltb_lt; exact Hl).
  rewrite Hd in Hstep.
  eexists. split; [exact Hstep|].
  exact (EpisodicLifeEnv_reset_life E s1 _ _ r0 s2 Hr0).
Qed.

(** X10. A game over, then [reset]: whatever the lives, after a step
    whose inner [done] is true the [reset] that follows resets the inner
    environment once and takes no step. *)
Theorem EpisodicLifeEnv_game_over_then_reset {St} (E : Env St) action s l b
    r s1 o s2 :
  env_step E action s = (inr r, s1) ->
  sr_done r = true ->
  env_reset E s1 = (inr o, s2) ->
  exists w1,
    EpisodicLifeEnv_step (Logged E) action (mkEpisodic (s, []) l b) =
      (inr (mkStep (sr_obs r) (sr_reward r) true (sr_info r)), w1)
    /\ EpisodicLifeEnv_reset (Logged E) w1 =
         (inr o,
          mkEpisodic (s2, [CallStep action (inr r); CallReset (inr o)])
                     (ale_lives E s2) true).
Proof.
  intros Hr Hd Ho.
  pose proof (EpisodicLifeEnv_step_run E action s [] l b r s1 Hr) as Hstep.
  rewrite Hd in Hstep.
  replace (if (0 <? ale_lives E s1) && (ale_lives E s1 <? l)
           then true else true) with true in Hstep
    by (destruct ((0 <? ale_lives E s1) && (ale_lives E s1 <? l));
        reflexivity).
  eexists. split; [exact Hstep|].
  exact (EpisodicLifeEnv_reset_real E s1 _ _ o s2 Ho).
Qed.

(** X11. The first [reset] of a new [EpisodicLifeEnv] resets the inner
    environment once and takes no step ([was_real_done] starts as
    [True]), and replaces the initial [lives = 0] by the lives the
    environment reports after that reset. *)
Theorem EpisodicLifeEnv_first_reset {St} (E : Env St) s o s1 :
  env_reset E s = (inr o, s1) ->
  EpisodicLifeEnv_reset (Logged E)
    (gym_state (EpisodicLifeEnv_init (mkGym _ (Logged E) (s, [])))) =
    (inr o, mkEpisodic (s1, [CallReset (inr o)]) (ale_lives E s1) true)
  /\ lives (gym_state (EpisodicLifeEnv_init (mkGym _ (Logged E) (s, []))))
     = 0.
Proof.
  intros Ho. split; [|reflexivity].
  exact (EpisodicLifeEnv_reset_real E s [] 0 o s1 Ho).
Qed.

(** X12. [EpisodicLifeEnv] hands on the exception of the inner call: when
    the inner [step] raises, so does [step], and [lives] and
    [was_real_done] are as before; when the inner call made by [reset]
    raises, so does [reset], and [lives] is not refreshed. *)
Theorem EpisodicLifeEnv_raises {St} (E : Env St) action
    (w : EpisodicLifeState St) e s1 :
  (env_step E action (el_env w) = (inl e, s1) ->
   EpisodicLifeEnv_step E action w =
     (inl e, mkEpisodic s1 (lives w) (was_real_done w)))
  /\
  (was_real_done w = true -> env_reset E (el_env w) = (inl e, s1) ->
   EpisodicLifeEnv_reset E w =
     (inl e, mkEpisodic s1 (lives w) (was_real_done w)))
  /\
  (was_real_done w = false -> env_step E 0 (el_env w) = (inl e, s1) ->
   EpisodicLifeEnv_reset E w =
     (inl e, mkEpisodic s1 (lives w) (was_real_done w))).
Proof.
  destruct w as [s l b]. cbn [el_env lives was_real_done]. repeat split.
  - intros H. unfold EpisodicLifeEnv_step, el_inner. unfold_monad.
    cbn [el_env]. rewrite H. reflexivity.
  - intros -> H. unfold EpisodicLifeEnv_reset, el_inner. unfold_monad.
    cbn [el_env was_real_done]. rewrite H. reflexivity.
  - intros -> H. unfold EpisodicLifeEnv_reset, el_inner. unfold_monad.
    cbn [el_env was_real_done]. rewrite H. reflexivity.
Qed.

(** ** FireResetEnv *)

(** X13. [FireResetEnv.reset] neither retries nor hides a failure: when
    it raises, the last call received by the inner environment raised
    that very exception. *)
Theorem FireResetEnv_reset_raises {St} (E : Env St) s e s' log :
  FireResetEnv_reset (Logged E) (s, []) = (inl e, (s', log)) ->
  exists pre c, log = pre ++ [c] /\ call_raised c e.
Proof.
  unfold FireResetEnv_reset.
  unfold bind at 1. rewrite logged_reset.
  destruct (env_reset E s) as [[e0|o0] s0]; cbn [fst snd app].
  { intros H. apply pair_equal_spec in H as [He Hs].
    apply pair_equal_spec in Hs as [_ <-]. injection He as ->.
    exists [], (CallReset (inl e)). split; reflexivity. }
  unfold bind at 1. rewrite logged_step.
  destruct (env_step E 1 s0) as [[e1|r1] s1]; cbn [fst snd app].
  { intros H. apply pair_equal_spec in H as [He Hs].
    apply pair_equal_spec in Hs as [_ <-]. injection He as ->.
    eexists [_], (CallStep 1 (inl e)). split; reflexivity. }
  unfold bind at 1.
  assert (Hmid : forall s1' l1,
    (r2 <- env_step (Logged E) 2;;
     (if sr_done r2 then env_reset (Logged E);;; ret tt else ret tt);;;
     ret (sr_obs r2)) (s1', l1) = (inl e, (s', log)) ->
    exists pre c, log = pre ++ [c] /\ call_raised c e).
  { intros s1' l1. unfold bind at 1. rewrite logged_step.
    destruct (env_step E 2 s1') as [[e2|r2] s2]; cbn [fst snd].
    - intros H. apply pair_equal_spec in H as [He Hs].
      apply pair_equal_spec in Hs as [_ <-]. injection He as ->.
      exists l1, (CallStep 2 (inl e)). split; reflexivity.
    - unfold bind at 1. destruct (sr_done r2).
      + unfold bind at 1. rewrite logged_reset.
        destruct (env_reset E s2) as [[e3|o3] s3]; cbn [fst snd].
        * intros H. apply pair_equal_spec in H as [He Hs].
          apply pair_equal_spec in Hs as [_ <-]. injection He as ->.
          eexists _, (CallReset (inl e)). split; reflexivity.
        * unfold ret. discriminate.
      + unfold ret. discriminate. }
  destruct (sr_done r1).
  - unfold bind at 1. rewrite logged_reset.
    destruct (env_reset E s1) as [[e1'|o1] s1']; cbn [fst snd].
    + intros H. apply pair_equal_spec in H as [He Hs].
      apply pair_equal_spec in Hs as [_ <-]. injection He as ->.
      eexists _, (CallReset (inl e)). split; reflexivity.
    + unfold ret at 1. apply Hmid.
  - unfold ret at 1. apply Hmid.
Qed.

(** ** AtariWrapper *)




(** X15. What a constructed [AtariWrapper] declares: observations of
    shape [(screen_size, screen_size, 1)], whatever the shape declared
    by the wrapped environment, and the action meanings of the wrapped
    environment. *)
Theorem AtariWrapper_declares (raw : GymEnv) (c : AtariConfig) (w : GymEnv) :
  AtariWrapper_init raw c = inr w ->
  observation_shape (gym_env w) = [screen_size c; screen_size c; 1]
  /\ get_action_meanings (gym_env w) = get_action_meanings (gym_env raw).
Proof.
  intros H. apply AtariWrapper_init_inr in H. subst w.
  destruct (clip_reward c),
    (str_in "FIRE" (get_action_meanings (gym_env raw))),
    (terminal_on_life_loss c); split; reflexivity.
Qed.

(** ** WarpFrame and ClipRewardEnv *)

(** X16. The two outer layers of the pipeline, [ClipRewardEnv] over
    [WarpFrame], make one inner call per call and change only what they
    are for: [step] returns the inner frame cropped (if a region is
    given), turned to gray and resized, the sign of the inner reward, and
    the inner [done] and [info]; [reset] returns the inner frame
    transformed in the same way; an inner exception is handed on. *)
Theorem outer_layers_step {St} (E : Env St) width height rg action s log :
  let top := ClipRewardEnv (WarpFrame (Logged E) width height rg) in
  let warp f :=
    resize_INTER_AREA width height
      (cvtColor_RGB2GRAY (match rg with Some x => crop x f | None => f end)) in
  (forall r s1, env_step E action s = (inr r, s1) ->
     env_step top action (s, log) =
       (inr (mkStep (warp (sr_obs r)) (np_sign (sr_reward r))
                    (sr_done r) (sr_info r)),
        (s1, log ++ [CallStep action (inr r)])))
  /\
  (forall o s1, env_reset E s = (inr o, s1) ->
     env_reset top (s, log) =
       (inr (warp o), (s1, log ++ [CallReset (inr o)])))
  /\
  (forall e s1, env_step E action s = (inl e, s1) ->
     env_step top action (s, log) =
       (inl e, (s1, log ++ [CallStep action (inl e)]))).
Proof.
  cbv zeta. repeat split.
  - intros r s1 H. cbn [env_step ClipRewardEnv WarpFrame]. unfold bind.
    rewrite (logged_step_ok _ _ _ _ _ _ H). reflexivity.
  - intros o s1 H. cbn [env_reset ClipRewardEnv WarpFrame]. unfold bind.
    rewrite (logged_reset_ok _ _ _ _ _ H). reflexivity.
  - intros e s1 H. cbn [env_step ClipRewardEnv WarpFrame]. unfold bind.
    rewrite logged_step, H. reflexivity.
Qed.

End EdgeCases.

(** * The properties on scripted environments *)

Import Scripted.
#[local] Existing Instance payload.

(** C1 on [losing]: the third call loses a life (3 to 2) without a game
    over, so [done] is forced. *)
Lemma EpisodicLifeEnv_step_spec_witness :
  EpisodicLifeEnv_step losing 7 (mkEpisodic 2%nat 3 true) =
    (inr (mkStep [8; 2] 2 true tt), mkEpisodic 3%nat 2 false)
  /\ (true = true <-> 0 < 2 < 3).
Proof.
  exact (EpisodicLifeEnv_step_spec losing 7 (mkEpisodic 2%nat 3 true)
           (mkStep [8; 2] 2 false tt) 3%nat eq_refl).
Defined.

(** C2 on [losing], after the life loss: one no-op step, no reset. *)
Lemma EpisodicLifeEnv_reset_spec_witness :
  EpisodicLifeEnv_reset (Logged losing) (mkEpisodic (3%nat, []) 2 false) =
    (inr [1; 3],
     mkEpisodic (4%nat, [CallStep 0 (inr (mkStep [1; 3] 3 false tt))])
                2 false).
Proof.
  exact (proj2 (EpisodicLifeEnv_reset_spec losing 3%nat [] 2)
           (mkStep [1; 3] 3 false tt) 4%nat eq_refl).
Defined.

(** C3 on [calm] with [skip = 4]. *)
Lemma MaxAndSkipEnv_step_spec_witness :
  exists rs0 rl s' b',
    MaxAndSkipEnv_step (Logged calm) 4 7
      (mkMaxAndSkip (0%nat, []) ([0; 0], [0; 0])) =
      (inr (mkStep (frame_max (fst b') (snd b'))
                   (fold_left Z.add (map sr_reward (rs0 ++ [rl])) 0)
                   (sr_done rl) (sr_info rl)),
       mkMaxAndSkip (s', step_calls 7 (rs0 ++ [rl])) b')
    /\ Z.of_nat (List.length (rs0 ++ [rl])) <= 4.
Proof.
  destruct (MaxAndSkipEnv_step_spec calm 4 7 0%nat ([0; 0], [0; 0])
              (env_never_raises _ _ _) ltac:(lia))
    as [(rs0 & rl & s' & b' & Hrun & _ & Hlen & _) _].
  exists rs0, rl, s', b'. split; [exact Hrun|exact Hlen].
Defined.

(** C4 on [fragile] with [skip = 4]: the loop stops at iteration 0. *)
Lemma MaxAndSkipEnv_buffer_keyed_witness :
  exists rs r s' b',
    MaxAndSkipEnv_step (Logged fragile) 4 7
      (mkMaxAndSkip (0%nat, []) ([5; 6], [7; 8])) =
      (inr r, mkMaxAndSkip (s', step_calls 7 rs) b')
    /\ (Z.of_nat (List.length rs) < 4 - 1 ->
        b' = ([5; 6], [7; 8]) /\ sr_obs r = frame_max [5; 6] [7; 8]).
Proof.
  destruct (MaxAndSkipEnv_buffer_keyed fragile 4 7 0%nat ([5; 6], [7; 8])
              (env_never_raises _ _ _) ltac:(lia))
    as [(rs & r & s' & b' & Hrun & _ & _ & _ & Hearly) _].
  exists rs, r, s', b'. split; [exact Hrun|exact Hearly].
Defined.

(** C5 as stated fails on [fragile] with one no-op: the only no-op step
    shows [[1; 1]] and ends the episode, and [reset] returns [[0; 2]],
    the observation of the inner reset that follows. *)
Lemma NoopResetEnv_reset_obs_from_reset :
  let run := NoopResetEnv_reset (Logged fragile) 30 (Some 1) (0%nat, []) in
  fst run = inr [0; 2]
  /\ snd (snd run) = [CallReset (inr [0; 0]);
                      CallStep 0 (inr (mkStep [1; 1] 1 true tt));
                      CallReset (inr [0; 2])]
  /\ last_step_obs (snd (snd run)) = Some [1; 1]
  /\ [0; 2] <> [1; 1].
Proof.
  cbv zeta. repeat split. discriminate.
Qed.

Lemma NoopResetEnv_reset_obs_witness :
  exists obs s' log,
    NoopResetEnv_reset (Logged fragile) 30 (Some 1) (0%nat, []) =
      (inr obs, (s', log))
    /\ ((exists pre r,
           log = pre ++ [CallStep noop_action (inr r)]
           /\ sr_done r = false /\ obs = sr_obs r)
        \/
        (exists pre r,
           log = pre ++ [CallStep noop_action (inr r); CallReset (inr obs)]
           /\ sr_done r = true)).
Proof.
  exact (NoopResetEnv_reset_obs fragile 30 (Some 1) 0%nat
           (env_never_raises _ _ _) ltac:(cbn; lia)).
Defined.

(** C6 on [fragile] with two no-ops, each ending the episode. *)
Lemma NoopResetEnv_reset_count_witness :
  exists obs s' o0 its,
    let log := CallReset (inr o0) :: flat_map iter_calls its in
    NoopResetEnv_reset (Logged fragile) 30 (Some 2) (0%nat, []) =
      (inr obs, (s', log))
    /\ Forall iter_ok its
    /\ count is_step log = List.length its
    /\ step_actions log = repeat noop_action (List.length its)
    /\ Z.of_nat (count is_step log) = 2
    /\ count is_reset log = S (count is_done_step log).
Proof.
  exact (NoopResetEnv_reset_count fragile 30 (Some 2) 0%nat
           (env_never_raises _ _ _) ltac:(cbn; lia)).
Defined.

(** C7 on [fragile]. *)
Lemma FireResetEnv_reset_spec_witness :
  exists o0 r1 o1 r2 rest s',
    let log := [CallReset (inr o0); CallStep 1 (inr r1)]
               ++ (if sr_done r1 then [CallReset (inr o1)] else [])
               ++ [CallStep 2 (inr r2)] ++ rest in
    FireResetEnv_reset (Logged fragile) (0%nat, []) =
      (inr (sr_obs r2), (s', log))
    /\ step_actions log = [1; 2].
Proof.
  exact (proj1 (FireResetEnv_reset_spec fragile 0%nat
                  (env_never_raises _ _ _))).
Defined.

(** C10 on [fragile]. *)
Lemma FireResetEnv_reset_trailing_reset_witness :
  exists o0 r1 o1 r2 o2 s',
    let log := [CallReset (inr o0); CallStep 1 (inr r1)]
               ++ (if sr_done r1 then [CallReset (inr o1)] else [])
               ++ [CallStep 2 (inr r2)]
               ++ (if sr_done r2 then [CallReset (inr o2)] else []) in
    FireResetEnv_reset (Logged fragile) (0%nat, []) =
      (inr (sr_obs r2), (s', log))
    /\ count is_reset log
       = (1 + (if sr_done r1 then 1 else 0) + (if sr_done r2 then 1 else 0))%nat
    /\ (sr_done r1 = true -> sr_done r2 = true -> count is_reset log = 3%nat).
Proof.
  exact (FireResetEnv_reset_trailing_reset fragile 0%nat
           (env_never_raises _ _ _)).
Defined.

(** C8 as stated fails on an action set whose action 0 is "FIRE": the
    constructor raises an [AssertionError] that carries no message. *)
Lemma NoopResetEnv_init_error_not_descriptive :
  exists e,
    NoopResetEnv_init
      (mkGym nat (env ["FIRE"; "NOOP"]%string (fun _ => false) (fun _ => 0))
             0%nat) 30 None = inl e
    /\ exn_message e = None
    /\ ~ descriptive e.
Proof.
  exists (AssertionError None). repeat split.
  intros (m & Hm & _). discriminate Hm.
Qed.

Lemma construction_fails_fast_witness :
  (exists e,
     NoopResetEnv_init (mkGym nat (env pong_meanings (fun _ => false)
                                       (fun _ => 0)) 0%nat) 30 None = inr e)
  /\
  (exists e,
     FireResetEnv_init (mkGym nat (env pong_meanings (fun _ => false)
                                       (fun _ => 0)) 0%nat) = inl e
     /\ e = AssertionError None).
Proof.
  pose proof (construction_fails_fast
                (mkGym nat (env pong_meanings (fun _ => false) (fun _ => 0))
                       0%nat) 30 None) as (_ & Hfire & Hnoop & _).
  split.
  - exact (Hnoop eq_refl).
  - assert (Hne : nth_error pong_meanings 1 <> Some "FIRE"%string)
      by (cbn; discriminate).
    destruct (Hfire (or_introl Hne)) as (e & He & Hm).
    exists e. split; [exact He|exact Hm].
Defined.

(** C9 on [calm] with the default configuration. *)
Lemma AtariWrapper_layers_witness :
  exists w,
    AtariWrapper_init (mkGym nat calm 0%nat) default_config = inr w
    /\ env_chain (gym_env w) =
       [L_AtariWrapper; L_ClipRewardEnv; L_WarpFrame 84 84 None;
        L_FireResetEnv; L_EpisodicLifeEnv; L_MaxAndSkipEnv 4;
        L_NoopResetEnv 30 None].
Proof.
  eexists. split; [reflexivity|].
  exact (proj1 (AtariWrapper_layers (mkGym nat calm 0%nat) default_config
                  _ eq_refl)).
Defined.

(** * The further properties on scripted environments *)

Module Faulty.

(** As [Scripted.env], except that [step] raises from the [k]-th call
    on. *)
Definition crashing (k : nat) : @Env payload nat :=
  @mkEnv payload nat
    (fun t => (inr [0; Z.of_nat t], S t))
    (fun a t =>
       if (k <=? t)%nat
       then (inl (ValueError "emulator crashed"), S t)
       else (inr (@mkStep payload [1 + a; Z.of_nat t] (Z.of_nat t) false tt),
             S t))
    breakout_meanings
    (fun _ => 3)
    (fun t => (Z.of_nat t, S t))
    [2]
    [].

(** [done] from the [k]-th call on. *)
Definition ends_at (k : nat) : @Env payload nat :=
  env breakout_meanings (fun t => (k <=? t)%nat) (fun _ => 3).


End Faulty.

Import Faulty.

Lemma NoopResetEnv_reset_nonpositive_override_witness :
  NoopResetEnv_reset (Logged calm) 30 (Some 0) (5%nat, []) =
    (inl (AssertionError None), (6%nat, [CallReset (inr [0; 5])])).
Proof.
  exact (NoopResetEnv_reset_nonpositive_override calm 30 0 5%nat [0; 5]
           6%nat ltac:(lia) eq_refl).
Defined.

Lemma NoopResetEnv_reset_empty_range_witness :
  NoopResetEnv_reset (Logged calm) 0 None (5%nat, []) =
    (inl (ValueError "low >= high"), (6%nat, [CallReset (inr [0; 5])])).
Proof.
  exact (NoopResetEnv_reset_empty_range calm 0 5%nat [0; 5] 6%nat
           ltac:(lia) eq_refl).
Defined.

Lemma NoopResetEnv_reset_raises_witness :
  (exists pre c,
     [CallReset (inr [0; 0]);
      CallStep 0 (inl (ValueError "emulator crashed"))] = pre ++ [c]
     /\ call_raised c (ValueError "emulator crashed"))
  \/ (exists o,
        [CallReset (inr [0; 0]);
         CallStep 0 (inl (ValueError "emulator crashed"))]
        = [CallReset (inr o)]
        /\ (ValueError "emulator crashed" = AssertionError None
            \/ ValueError "emulator crashed" = ValueError "low >= high")).
Proof.
  exact (NoopResetEnv_reset_raises (crashing 1) 30 (Some 2) 0%nat
           (ValueError "emulator crashed") 2%nat
           [CallReset (inr [0; 0]);
            CallStep 0 (inl (ValueError "emulator crashed"))] eq_refl).
Defined.

Lemma MaxAndSkipEnv_step_no_iteration_witness :
  MaxAndSkipEnv_step (Logged calm) 0 7
    (mkMaxAndSkip (0%nat, []) ([0; 0], [0; 0])) =
    (inl (UnboundLocalError
            "local variable 'info' referenced before assignment"),
     mkMaxAndSkip (0%nat, []) ([0; 0], [0; 0])).
Proof.
  exact (MaxAndSkipEnv_step_no_iteration calm 0 7
           (mkMaxAndSkip (0%nat, []) ([0; 0], [0; 0])) ltac:(lia)).
Defined.

Lemma MaxAndSkipEnv_step_skip_one_witness :
  MaxAndSkipEnv_step (Logged calm) 1 7
    (mkMaxAndSkip (0%nat, []) ([0; 0], [0; 0])) =
    (inr (mkStep (frame_max [0; 0] [8; 0]) 0 false tt),
     mkMaxAndSkip (1%nat, [CallStep 7 (inr (mkStep [8; 0] 0 false tt))])
                  ([0; 0], [8; 0]))
  /\ frame_max [0; 0] [8; 0] = [8; 0].
Proof.
  destruct (MaxAndSkipEnv_step_skip_one calm 7 0%nat [] [0; 0] [0; 0]
              (@mkStep payload [8; 0] 0 false tt) 1%nat eq_refl)
    as [Hrun Hmax].
  split; [exact Hrun|].
  apply Hmax; [reflexivity|].
  repeat constructor; lia.
Defined.

(** On an environment that is [done] from its fifth call on: a full
    step of four frames, then a step that stops at iteration 0. *)
Lemma MaxAndSkipEnv_early_stop_repeats_obs_witness :
  let E := ends_at 4 in
  let log1 := step_calls 7 [mkStep [8; 0] 0 false tt;
                            mkStep [8; 1] 1 false tt;
                            mkStep [8; 2] 2 false tt;
                            mkStep [8; 3] 3 false tt] in
  let log2 := step_calls 7 [mkStep [8; 4] 4 true tt] in
  MaxAndSkipEnv_step (Logged E) 4 7
    (mkMaxAndSkip (0%nat, []) ([0; 0], [0; 0])) =
    (inr (mkStep [8; 3] 6 false tt),
     mkMaxAndSkip (4%nat, log1) ([8; 2], [8; 3]))
  /\ MaxAndSkipEnv_step (Logged E) 4 7
       (mkMaxAndSkip (4%nat, []) ([8; 2], [8; 3])) =
       (inr (mkStep [8; 3] 4 true tt),
        mkMaxAndSkip (5%nat, log2) ([8; 2], [8; 3]))
  /\ sr_obs (mkStep [8; 3] 4 true tt) = sr_obs (mkStep [8; 3] 6 false tt).
Proof.
  cbv zeta. split; [reflexivity|]. split; [reflexivity|].
  exact (proj1 (MaxAndSkipEnv_early_stop_repeats_obs (ends_at 4) 4 7 7
                  0%nat ([0; 0], [0; 0])
                  (@mkStep payload [8; 3] 6 false tt) 4%nat
                  (step_calls 7 [@mkStep payload [8; 0] 0 false tt;
                                 mkStep [8; 1] 1 false tt;
                                 mkStep [8; 2] 2 false tt;
                                 mkStep [8; 3] 3 false tt])
                  ([8; 2], [8; 3])
                  (@mkStep payload [8; 3] 4 true tt) 5%nat
                  (step_calls 7 [@mkStep payload [8; 4] 4 true tt])
                  ([8; 2], [8; 3])
                  (env_never_raises _ _ _) ltac:(lia) eq_refl eq_refl
                  ltac:(cbn; lia))).
Defined.

Lemma MaxAndSkipEnv_step_raises_witness :
  exists rs s',
    (3%nat,
     [CallStep 7 (inr (mkStep [8; 0] 0 false tt));
      CallStep 7 (inr (mkStep [8; 1] 1 false tt));
      CallStep 7 (inl (ValueError "emulator crashed"))])
    = (s', step_calls 7 rs ++ [CallStep 7 (inl (ValueError "emulator crashed"))])
    /\ Forall (fun r => sr_done r = false) rs.
Proof.
  exact (MaxAndSkipEnv_step_raises (crashing 2) 4 7 0%nat ([0; 0], [0; 0])
           (ValueError "emulator crashed")
           (mkMaxAndSkip
              (3%nat,
               [CallStep 7 (inr (mkStep [8; 0] 0 false tt));
                CallStep 7 (inr (mkStep [8; 1] 1 false tt));
                CallStep 7 (inl (ValueError "emulator crashed"))])
              ([0; 0], [0; 0]))
           ltac:(lia) eq_refl).
Defined.

Lemma EpisodicLifeEnv_life_loss_then_reset_witness :
  exists w1,
    EpisodicLifeEnv_step (Logged losing) 7 (mkEpisodic (2%nat, []) 3 true) =
      (inr (mkStep [8; 2] 2 true tt), w1)
    /\ EpisodicLifeEnv_reset (Logged losing) w1 =
         (inr [1; 3],
          mkEpisodic (4%nat, [CallStep 7 (inr (mkStep [8; 2] 2 false tt));
                              CallStep 0 (inr (mkStep [1; 3] 3 false tt))])
                     2 false).
Proof.
  exact (EpisodicLifeEnv_life_loss_then_reset losing 7 2%nat 3 true
           (mkStep [8; 2] 2 false tt) 3%nat (mkStep [1; 3] 3 false tt) 4%nat
           eq_refl eq_refl ltac:(cbn; lia) eq_refl).
Defined.

Lemma EpisodicLifeEnv_game_over_then_reset_witness :
  exists w1,
    EpisodicLifeEnv_step (Logged fragile) 7 (mkEpisodic (2%nat, []) 3 false) =
      (inr (mkStep [8; 2] 2 true tt), w1)
    /\ EpisodicLifeEnv_reset (Logged fragile) w1 =
         (inr [0; 3],
          mkEpisodic (4%nat, [CallStep 7 (inr (mkStep [8; 2] 2 true tt));
                              CallReset (inr [0; 3])])
                     3 true).
Proof.
  exact (EpisodicLifeEnv_game_over_then_reset fragile 7 2%nat 3 false
           (mkStep [8; 2] 2 true tt) 3%nat [0; 3] 4%nat
           eq_refl eq_refl eq_refl).
Defined.

Lemma EpisodicLifeEnv_first_reset_witness :
  EpisodicLifeEnv_reset (Logged calm)
    (gym_state (EpisodicLifeEnv_init (mkGym _ (Logged calm) (0%nat, [])))) =
    (inr [0; 0], mkEpisodic (1%nat, [CallReset (inr [0; 0])]) 3 true)
  /\ lives (gym_state (EpisodicLifeEnv_init
                         (mkGym _ (Logged calm) (0%nat, [])))) = 0.
Proof.
  exact (EpisodicLifeEnv_first_reset calm 0%nat [0; 0] 1%nat eq_refl).
Defined.

Lemma EpisodicLifeEnv_raises_witness :
  EpisodicLifeEnv_step (crashing 0) 7 (mkEpisodic 0%nat 3 true) =
    (inl (ValueError "emulator crashed"), mkEpisodic 1%nat 3 true).
Proof.
  exact (proj1 (EpisodicLifeEnv_raises (crashing 0) 7
                  (mkEpisodic 0%nat 3 true)
                  (ValueError "emulator crashed") 1%nat) eq_refl).
Defined.

Lemma FireResetEnv_reset_raises_witness :
  exists pre c,
    [CallReset (inr [0; 0]);
     CallStep 1 (inl (ValueError "emulator crashed"))] = pre ++ [c]
    /\ call_raised c (ValueError "emulator crashed").
Proof.
  exact (FireResetEnv_reset_raises (crashing 1) 0%nat
           (ValueError "emulator crashed") 2%nat
           [CallReset (inr [0; 0]);
            CallStep 1 (inl (ValueError "emulator crashed"))] eq_refl).
Defined.

Lemma AtariWrapper_declares_witness :
  exists w,
    AtariWrapper_init (mkGym nat calm 0%nat) default_config = inr w
    /\ observation_shape (gym_env w) = [84; 84; 1]
    /\ get_action_meanings (gym_env w) = breakout_meanings.
Proof.
  eexists. split; [reflexivity|].
  exact (AtariWrapper_declares (mkGym nat calm 0%nat) default_config
           _ eq_refl).
Defined.

Lemma outer_layers_step_witness :
  env_step (ClipRewardEnv (WarpFrame (Logged calm) 84 84 None)) 7
           (5%nat, []) =
    (inr (mkStep [8; 5] (Z.sgn 5) false tt),
     (6%nat, [CallStep 7 (inr (mkStep [8; 5] 5 false tt))])).
Proof.
  exact (proj1 (outer_layers_step calm 84 84 None 7 5%nat [])
           (mkStep [8; 5] 5 false tt) 6%nat eq_refl).
Defined.

